(** * Simple-Auction-Game: the auction state and the broadcast hub

    A shallow embedding of [server/auction_logic.py] (class [AuctionState])
    and [server/auction_hub.py] (class [AuctionHub]).

    Python integers are [Z]; strings are byte strings holding the UTF-8
    encoding of the source text.  [AuctionLogic] is the class on [int]
    prices and bids; [FloatAuction] has the constructor and [place_bid]
    on [float] prices and bids.  Methods that mutate [self] take the
    object's state and return the new one next to the returned value.
    Every method of [AuctionState] runs under [self.lock], so a call is
    one atomic step of the state.  The clock ([datetime.now()]) is an
    argument of each method that reads it.  Console logging ([print]) is
    not part of the model. *)

From stdpp Require Import base numbers list strings pretty gmap fin_maps.
From Stdlib Require Import QArith PrimFloat.

#[local] Open Scope string_scope.
#[local] Open Scope list_scope.
#[local] Open Scope Z_scope.

(** ** Python values the two classes rely on *)

Module Py.

(** Exceptions the modelled code can raise. *)
Inductive exn := TypeError | ZeroDivisionError | OSError.

Inductive result (A : Type) :=
| Ok (a : A)
| Raise (e : exn).
Arguments Ok {A} a.
Arguments Raise {A} e.

(** [str(n)] for an [int], as an f-string renders it. *)
Definition str_int (n : Z) : string := pretty n.

(** An optional argument of a call: left out, or given. *)
Inductive arg (A : Type) :=
| Omitted
| Given (a : A).
Arguments Omitted {A}.
Arguments Given {A} a.

Definition or_default {A} (d : A) (a : arg A) : A :=
  match a with
  | Omitted => d
  | Given x => x
  end.

(** [bool(n)] for an [int]: only [0] is false. *)
Definition truthy (n : Z) : bool := negb (n =? 0).

#[global] Instance result_bind : MBind result :=
  λ A B f r, match r with Ok a => f a | Raise e => Raise e end.

(** [l[start:]]: a negative [start] counts from the end, and the
    bounds are clamped to the list. *)
Definition slice_from {A} (start : Z) (l : list A) : list A :=
  let len := Z.of_nat (length l) in
  let i := if start <? 0 then Z.max (start + len) 0 else Z.min start len in
  drop (Z.to_nat i) l.

(** [float / int]; [None / int] is a [TypeError]. *)
Definition truediv (a : option Q) (b : Z) : result Q :=
  match a with
  | None => Raise TypeError
  | Some x => if b =? 0 then Raise ZeroDivisionError else Ok (x / inject_Z b)%Q
  end.

End Py.

(** ** [datetime] *)

Module Clock.

(** A [datetime] is the number of microseconds since a fixed local
    midnight. *)
Definition datetime := Z.

Definition two_digits (n : Z) : string :=
  if n <? 10 then "0" +:+ pretty n else pretty n.

(** [t.strftime('%H:%M:%S')] *)
Definition strftime_HMS (t : datetime) : string :=
  let s := t / 1000000 in
  two_digits ((s / 3600) mod 24) +:+ ":" +:+
  two_digits ((s / 60) mod 60) +:+ ":" +:+
  two_digits (s mod 60).

(** [(b - a).total_seconds()] *)
Definition total_seconds (b a : datetime) : Q := (b - a) # 1000000.

End Clock.

(** ** [auction_logic.py]: class [AuctionState] *)

Module AuctionLogic.
Import Py Clock.

(** One entry of [bid_history]: the dict
    [{"user", "value", "timestamp", "bid_number"}]. *)
Record BidRecord := {
  user : string;
  value : Z;
  timestamp : string;
  bid_number : Z
}.

(** The attributes of an [AuctionState] object ([lock] apart). *)
Record AuctionState := {
  current_price : Z;
  current_winner : option string;
  starting_price : Z;
  min_increment : Z;
  is_active : bool;
  bid_history : list BidRecord;
  total_bids : Z;
  unique_bidders : gset string;
  start_time : datetime;
  end_time : option datetime
}.

(** [AuctionState(starting_price, min_increment)], constructed at
    time [now]. *)
Definition init (starting_price min_increment : Z) (now : datetime)
  : AuctionState :=
  {| current_price := starting_price;
     current_winner := None;
     starting_price := starting_price;
     min_increment := min_increment;
     is_active := true;
     bid_history := [];
     total_bids := 0;
     unique_bidders := ∅;
     start_time := now;
     end_time := None |}.

(** [AuctionState()]: [starting_price=1000], [min_increment=50]. *)
Definition init_default (now : datetime) : AuctionState := init 1000 50 now.

(** [place_bid(user, value)]: the returned pair and the state after
    the call. *)
Definition place_bid (self : AuctionState) (user : string) (value : Z)
    (now : datetime) : (bool * string) * AuctionState :=
  if negb (is_active self) then
    ((false, "❌ Phiên đấu giá đã kết thúc"), self)
  else if value <=? 0 then
    ((false, "❌ Giá phải là số dương"), self)
  else if value <=? current_price self then
    ((false, "❌ Giá phải lớn hơn $" +:+ str_int (current_price self)), self)
  else
    let required_price := current_price self + min_increment self in
    if value <? required_price then
      ((false,
        "❌ Giá tối thiểu phải là $" +:+ str_int required_price +:+
        " (tăng $" +:+ str_int (min_increment self) +:+ ")"),
       self)
    else
      let total := total_bids self + 1 in
      let bid_record :=
        {| user := user;
           value := value;
           timestamp := strftime_HMS now;
           bid_number := total |} in
      ((true,
        "✅ Bid thành công! " +:+ user +:+ " đang dẫn đầu với $" +:+
        str_int value),
       {| current_price := value;
          current_winner := Some user;
          starting_price := starting_price self;
          min_increment := min_increment self;
          is_active := is_active self;
          bid_history := (bid_history self ++ [bid_record])%list;
          total_bids := total;
          unique_bidders := unique_bidders self ∪ {[user]};
          start_time := start_time self;
          end_time := end_time self |}).

Definition get_current_price (self : AuctionState) : Z :=
  current_price self.

Definition get_current_winner (self : AuctionState) : option string :=
  current_winner self.

Definition get_winner_info (self : AuctionState) : option string * Z :=
  (current_winner self, current_price self).

(** The expression
    [bid_history[-limit:] if limit else bid_history.copy()] on the
    items of the list.  [limit] is an [int] or [None]; [None] and [0]
    are its false values. *)
Definition history_slice {A} (bid_history : list A) (limit : option Z)
  : list A :=
  match limit with
  | Some n =>
      if truthy n then slice_from (- n) bid_history else bid_history
  | None => bid_history
  end.

(** [get_bid_history(limit=10)]; [Omitted] is the call without the
    argument. *)
Definition get_bid_history (self : AuctionState) (limit : arg (option Z))
  : list BidRecord :=
  history_slice (bid_history self) (or_default (Some 10) limit).

(** The dict returned by [get_statistics]. *)
Module Stats.
Record t := {
  total_bids : Z;
  unique_bidders : Z;
  current_price : Z;
  starting_price : Z;
  price_increase : Z;
  current_winner : option string;
  is_active : bool;
  duration_seconds : option Q;
  avg_bid_interval : Q
}.
End Stats.

(** The local [duration] of [get_statistics]: a [datetime] is always
    true, so [if self.end_time] tests for [None]. *)
Definition duration (self : AuctionState) (now : datetime) : option Q :=
  match end_time self with
  | Some e => Some (total_seconds e (start_time self))
  | None =>
      if is_active self then Some (total_seconds now (start_time self))
      else None
  end.

Definition get_statistics (self : AuctionState) (now : datetime)
  : result Stats.t :=
  let duration := duration self now in
  avg ← (if total_bids self >? 0 then truediv duration (total_bids self)
         else Ok 0%Q);
  Ok {| Stats.total_bids := total_bids self;
        Stats.unique_bidders := Z.of_nat (size (unique_bidders self));
        Stats.current_price := current_price self;
        Stats.starting_price := starting_price self;
        Stats.price_increase := current_price self - starting_price self;
        Stats.current_winner := current_winner self;
        Stats.is_active := is_active self;
        Stats.duration_seconds := duration;
        Stats.avg_bid_interval := avg |}.

Definition end_auction (self : AuctionState) (now : datetime)
  : AuctionState :=
  {| current_price := current_price self;
     current_winner := current_winner self;
     starting_price := starting_price self;
     min_increment := min_increment self;
     is_active := false;
     bid_history := bid_history self;
     total_bids := total_bids self;
     unique_bidders := unique_bidders self;
     start_time := start_time self;
     end_time := Some now |}.

Definition is_auction_active (self : AuctionState) : bool :=
  is_active self.

Definition get_required_next_bid (self : AuctionState) : Z :=
  current_price self + min_increment self.

(** [reset_auction(new_starting_price=None)]; the argument is tested
    with [if new_starting_price:]. *)
Definition reset_auction (self : AuctionState)
    (new_starting_price : option Z) (now : datetime) : AuctionState :=
  let starting_price' :=
    match new_starting_price with
    | Some p => if truthy p then p else starting_price self
    | None => starting_price self
    end in
  {| current_price := starting_price';
     current_winner := None;
     starting_price := starting_price';
     min_increment := min_increment self;
     is_active := true;
     bid_history := [];
     total_bids := 0;
     unique_bidders := ∅;
     start_time := now;
     end_time := None |}.

(** *** Sessions: the calls that change the state *)

Inductive call :=
| PlaceBid (user : string) (value : Z)
| EndAuction
| ResetAuction (new_starting_price : option Z).

(** One call, made when the clock reads [now]. *)
Definition step (self : AuctionState) (c : call) (now : datetime)
  : AuctionState :=
  match c with
  | PlaceBid user value => snd (place_bid self user value now)
  | EndAuction => end_auction self now
  | ResetAuction p => reset_auction self p now
  end.

Definition run (self : AuctionState) (cs : list (call * datetime))
  : AuctionState :=
  foldl (λ s '(c, now), step s c now) self cs.

(** A session of eleven accepted bids, one a second, each raising the
    price by the minimum increment. *)
Definition eleven_bids : list (call * datetime) :=
  (λ i, (PlaceBid "alice" (1000 + 50 * i), i * 1000000)) <$> seqZ 1 11.

(** The states an [AuctionState] object can be in: constructed, then
    any sequence of [place_bid], [end_auction] and [reset_auction]. *)
Inductive reachable : AuctionState → Prop :=
| reachable_init sp mi now : reachable (init sp mi now)
| reachable_step s c now : reachable s → reachable (step s c now).

End AuctionLogic.

(** ** [place_bid] on [float] prices

    The same constructor and method when the starting price, the
    increment and the bids are Python [float]s (IEEE binary64, [nan]
    included): [<=], [<] and [+] are the operations of the floats.  An
    [int] that a float holds exactly (up to [2^53]) behaves as that
    float. *)

Module FloatAuction.
Import Clock.

Record BidRecord := {
  user : string;
  value : float;
  timestamp : string;
  bid_number : Z
}.

Record AuctionState := {
  current_price : float;
  current_winner : option string;
  starting_price : float;
  min_increment : float;
  is_active : bool;
  bid_history : list BidRecord;
  total_bids : Z;
  unique_bidders : gset string;
  start_time : datetime;
  end_time : option datetime
}.

(** The message of [place_bid]: the f-string and the numbers it
    formats, before [str] renders them. *)
Inductive message :=
| AuctionEnded
| NotPositive
| NotAbove (current_price : float)
| BelowMinimum (required_price min_increment : float)
| BidAccepted (user : string) (value : float).

Definition init (starting_price min_increment : float) (now : datetime)
  : AuctionState :=
  {| current_price := starting_price;
     current_winner := None;
     starting_price := starting_price;
     min_increment := min_increment;
     is_active := true;
     bid_history := [];
     total_bids := 0;
     unique_bidders := ∅;
     start_time := now;
     end_time := None |}.

Definition place_bid (self : AuctionState) (user : string) (value : float)
    (now : datetime) : (bool * message) * AuctionState :=
  if negb (is_active self) then ((false, AuctionEnded), self)
  else if (value <=? 0)%float then ((false, NotPositive), self)
  else if (value <=? current_price self)%float then
    ((false, NotAbove (current_price self)), self)
  else
    let required_price := (current_price self + min_increment self)%float in
    if (value <? required_price)%float then
      ((false, BelowMinimum required_price (min_increment self)), self)
    else
      let total := total_bids self + 1 in
      let bid_record :=
        {| user := user;
           value := value;
           timestamp := strftime_HMS now;
           bid_number := total |} in
      ((true, BidAccepted user value),
       {| current_price := value;
          current_winner := Some user;
          starting_price := starting_price self;
          min_increment := min_increment self;
          is_active := is_active self;
          bid_history := (bid_history self ++ [bid_record])%list;
          total_bids := total;
          unique_bidders := unique_bidders self ∪ {[user]};
          start_time := start_time self;
          end_time := end_time self |}).

Definition get_required_next_bid (self : AuctionState) : float :=
  (current_price self + min_increment self)%float.

End FloatAuction.

(** ** The list objects behind [bid_history]

    [bid_history] is a Python list: an object with an identity, holding
    references to the record dicts.  [get_bid_history] builds a new list
    object (a slice or [.copy()]) over the same record objects. *)

Module Store.
Import Py AuctionLogic.

(** An object is a list of references or a record dict; references
    are object identities, numbered by [positive]. *)
Inductive obj :=
| ListObj (items : list positive)
| DictObj (record : BidRecord).

(** A new object gets an identity no live object has. *)
Definition alloc (σ : gmap positive obj) (o : obj)
  : positive * gmap positive obj :=
  let l := fresh (dom σ) in (l, <[l := o]> σ).

Definition record_at (σ : gmap positive obj) (l : positive)
  : option BidRecord :=
  match σ !! l with
  | Some (DictObj r) => Some r
  | _ => None
  end.

(** The records a list object shows. *)
Definition records (σ : gmap positive obj) (l : positive)
  : option (list BidRecord) :=
  match σ !! l with
  | Some (ListObj items) => mapM (record_at σ) items
  | _ => None
  end.

(** [get_bid_history(limit)] on an object whose [bid_history]
    attribute refers to [hist]: the reference returned and the store
    after the call. *)
Definition get_bid_history (σ : gmap positive obj) (hist : positive)
    (limit : arg (option Z)) : option (positive * gmap positive obj) :=
  match σ !! hist with
  | Some (ListObj items) =>
      Some (alloc σ (ListObj (history_slice items (or_default (Some 10) limit))))
  | _ => None
  end.

End Store.

(** ** [auction_hub.py]: class [AuctionHub] *)

Module AuctionHub.
Import Py.

(** The one-character string ["\n"]. *)
Definition newline : string := String (Ascii.ascii_of_nat 10) EmptyString.

Section Hub.
(** Connection handles, and the dicts that [json.dumps] accepts. *)
Context {socket : Type} `{Countable socket} {message : Type}.
Variable json_dumps : message → string.
(** [client_socket.sendall(data)] returns or raises. *)
Variable sendall : socket → string → result unit.

(** The attributes of an [AuctionHub] object that the registry
    methods use ([lock] and the [auction_state] reference apart). *)
Record AuctionHub := {
  clients : gmap socket string;
  message_count : Z
}.

Definition init : AuctionHub :=
  {| clients := ∅; message_count := 0 |}.

Definition add_client (self : AuctionHub) (client_socket : socket)
    (client_id : string) : AuctionHub :=
  {| clients := <[client_socket := client_id]> (clients self);
     message_count := message_count self |}.

Definition remove_client (self : AuctionHub) (client_socket : socket)
  : option string * AuctionHub :=
  match clients self !! client_socket with
  | Some client_id =>
      (Some client_id,
       {| clients := delete client_socket (clients self);
          message_count := message_count self |})
  | None => (None, self)
  end.

Definition get_client_count (self : AuctionHub) : Z :=
  Z.of_nat (size (clients self)).

Definition get_client_list (self : AuctionHub) : list string :=
  (map_to_list (clients self)).*2.

(** Whether the send of [message_bytes] to a connection raises. *)
Definition send_fails (message_bytes : string) (client_socket : socket)
  : bool :=
  match sendall client_socket message_bytes with
  | Ok _ => false
  | Raise _ => true
  end.

(** The body of the loop over [self.clients.items()]; the state of
    the loop is [(disconnected_clients, success_count)]. *)
Definition send_item (exclude_socket : option socket)
    (message_bytes : string) (acc : list socket * Z)
    (item : socket * string) : list socket * Z :=
  if bool_decide (exclude_socket = Some item.1) then acc
  else
    match sendall item.1 message_bytes with
    | Ok _ => (acc.1, acc.2 + 1)
    | Raise _ => ((acc.1 ++ [item.1])%list, acc.2)
    end.

(** [broadcast_message(message_dict, exclude_socket=None)]. *)
Definition broadcast_message (self : AuctionHub) (message_dict : message)
    (exclude_socket : option socket) : Z * AuctionHub :=
  let message_bytes := json_dumps message_dict +:+ newline in
  let '(disconnected_clients, success_count) :=
    foldl (send_item exclude_socket message_bytes) ([], 0)
      (map_to_list (clients self)) in
  let self' :=
    foldl (λ h client_socket, (remove_client h client_socket).2)
      self disconnected_clients in
  (success_count,
   {| clients := clients self';
      message_count := message_count self' + 1 |}).

(** [send_to_client(client_socket, message_dict)]. *)
Definition send_to_client (self : AuctionHub) (client_socket : socket)
    (message_dict : message) : bool * AuctionHub :=
  match sendall client_socket (json_dumps message_dict +:+ newline) with
  | Ok _ => (true, self)
  | Raise _ => (false, (remove_client self client_socket).2)
  end.

(** [close_all_clients()]: closing a connection leaves no trace in the
    hub; the registry is cleared. *)
Definition close_all_clients (self : AuctionHub) : AuctionHub :=
  {| clients := ∅; message_count := message_count self |}.

(** [get_hub_statistics()]:
    [(total_clients, client_ids, total_messages_broadcast)]. *)
Definition get_hub_statistics (self : AuctionHub) : Z * list string * Z :=
  (Z.of_nat (size (clients self)),
   (map_to_list (clients self)).*2,
   message_count self).

End Hub.

End AuctionHub.

(** ** The messages of [auction_hub.py]

    The dicts that the [broadcast_*] methods hand to [json.dumps]. *)

Module Json.

(** What [json.dumps] serialises: [None], [bool], [int], [float],
    [str], [list], and [dict] with its keys in insertion order. *)
#[warnings="-register-all"]
Inductive value :=
| Null
| Bool (b : bool)
| Int (n : Z)
| Float (x : Q)
| Str (s : string)
| Array (items : list value)
| Object (members : list (string * value)).

(** [d[key]], [None] for a missing key. *)
Fixpoint get (key : string) (d : list (string * value)) : option value :=
  match d with
  | [] => None
  | (k, v) :: d' => if decide (k = key) then Some v else get key d'
  end.

Definition of_str (s : option string) : value :=
  match s with
  | Some s => Str s
  | None => Null
  end.

Definition of_float (x : option Q) : value :=
  match x with
  | Some x => Float x
  | None => Null
  end.

End Json.

Module HubMessages.
Import Py Clock AuctionLogic AuctionHub.

(** A [bid_history] entry, as the dict it is. *)
Definition bid_record_json (r : BidRecord) : Json.value :=
  Json.Object
    [("user", Json.Str (user r));
     ("value", Json.Int (value r));
     ("timestamp", Json.Str (timestamp r));
     ("bid_number", Json.Int (bid_number r))].

(** The dict returned by [get_statistics].  [avg_bid_interval] is the
    [float] [duration / total_bids] when [total_bids > 0] and the [int]
    [0] otherwise. *)
Definition statistics_json (st : Stats.t) : Json.value :=
  Json.Object
    [("total_bids", Json.Int (Stats.total_bids st));
     ("unique_bidders", Json.Int (Stats.unique_bidders st));
     ("current_price", Json.Int (Stats.current_price st));
     ("starting_price", Json.Int (Stats.starting_price st));
     ("price_increase", Json.Int (Stats.price_increase st));
     ("current_winner", Json.of_str (Stats.current_winner st));
     ("is_active", Json.Bool (Stats.is_active st));
     ("duration_seconds", Json.of_float (Stats.duration_seconds st));
     ("avg_bid_interval",
      if Stats.total_bids st >? 0 then Json.Float (Stats.avg_bid_interval st)
      else Json.Int 0)].

(** The local [message] of [broadcast_new_price(user, value)], built
    from the auction state the hub refers to. *)
Definition new_price_message (auction_state : AuctionState) (user : string)
    (value : Z) (now : datetime) : result (list (string * Json.value)) :=
  stats ← get_statistics auction_state now;
  let next_min_bid := get_required_next_bid auction_state in
  Ok [("type", Json.Str "NEW_PRICE");
      ("user", Json.Str user);
      ("value", Json.Int value);
      ("next_min_bid", Json.Int next_min_bid);
      ("total_bids", Json.Int (Stats.total_bids stats));
      ("timestamp", Json.Str (strftime_HMS now))].

(** The local [message] of [broadcast_winner(user, value)]. *)
Definition winner_message (auction_state : AuctionState) (user : string)
    (value : Z) (now : datetime) : result (list (string * Json.value)) :=
  stats ← get_statistics auction_state now;
  Ok [("type", Json.Str "WINNER");
      ("user", Json.Str user);
      ("value", Json.Int value);
      ("message",
       Json.Str ("🎉 " +:+ user +:+ " đã thắng với giá $" +:+
                 str_int value +:+ "!"));
      ("total_bids", Json.Int (Stats.total_bids stats));
      ("unique_bidders", Json.Int (Stats.unique_bidders stats));
      ("duration_seconds", Json.of_float (Stats.duration_seconds stats));
      ("price_increase", Json.Int (Stats.price_increase stats))].

(** The local [message] of [broadcast_bid_history(limit=10)], which
    calls [get_bid_history(limit)]. *)
Definition bid_history_message (auction_state : AuctionState)
    (limit : arg (option Z)) : list (string * Json.value) :=
  let history :=
    get_bid_history auction_state (Given (or_default (Some 10) limit)) in
  [("type", Json.Str "BID_HISTORY");
   ("history", Json.Array (bid_record_json <$> history));
   ("total_bids", Json.Int (Z.of_nat (length history)))].

(** The local [message] of [broadcast_statistics()]. *)
Definition statistics_message (auction_state : AuctionState) (now : datetime)
  : result (list (string * Json.value)) :=
  stats ← get_statistics auction_state now;
  Ok [("type", Json.Str "STATISTICS");
      ("stats", statistics_json stats)].

(** The local [message] of [broadcast_shutdown()]. *)
Definition shutdown_message (now : datetime) : list (string * Json.value) :=
  [("type", Json.Str "SHUTDOWN");
   ("message", Json.Str "Server đang shutdown. Cảm ơn bạn đã tham gia!");
   ("timestamp", Json.Str (strftime_HMS now))].

(** The local [message] of
    [broadcast_warning(warning_message, remaining_seconds=None)]; the
    key [remaining_seconds] is added under
    [if remaining_seconds is not None]. *)
Definition warning_message (warning_message : string)
    (remaining_seconds : option Z) (now : datetime)
  : list (string * Json.value) :=
  [("type", Json.Str "WARNING");
   ("message", Json.Str warning_message);
   ("timestamp", Json.Str (strftime_HMS now))] ++
  match remaining_seconds with
  | Some n => [("remaining_seconds", Json.Int n)]
  | None => []
  end.

Section Builders.
Context {socket : Type} `{Countable socket}.
Variable json_dumps : list (string * Json.value) → string.
Variable sendall : socket → string → result unit.

#[local] Abbreviation hub := (AuctionHub (socket := socket)).

(** Each method builds its message and calls [broadcast_message] on
    it; the state of the hub after the call is returned.  A method that
    reads the statistics raises what [get_statistics] raises, before
    anything is sent. *)
Definition broadcast_new_price (self : hub)
    (auction_state : AuctionState) (user : string) (value : Z)
    (now : datetime) : result hub :=
  message ← new_price_message auction_state user value now;
  Ok (broadcast_message json_dumps sendall self message None).2.

Definition broadcast_winner (self : hub)
    (auction_state : AuctionState) (user : string) (value : Z)
    (now : datetime) : result hub :=
  message ← winner_message auction_state user value now;
  Ok (broadcast_message json_dumps sendall self message None).2.

Definition broadcast_bid_history (self : hub)
    (auction_state : AuctionState) (limit : arg (option Z)) : hub :=
  (broadcast_message json_dumps sendall self
     (bid_history_message auction_state limit) None).2.

Definition broadcast_statistics (self : hub)
    (auction_state : AuctionState) (now : datetime) : result hub :=
  message ← statistics_message auction_state now;
  Ok (broadcast_message json_dumps sendall self message None).2.

Definition broadcast_shutdown (self : hub) (now : datetime)
  : hub :=
  (broadcast_message json_dumps sendall self (shutdown_message now) None).2.

Definition broadcast_warning (self : hub) (text : string)
    (remaining_seconds : option Z) (now : datetime) : hub :=
  (broadcast_message json_dumps sendall self
     (warning_message text remaining_seconds now) None).2.

(** *** Sessions of the hub

    A call on the hub, with the behaviour of the connections at the
    time of the call. *)
Inductive call :=
| AddClient (client_socket : socket) (client_id : string)
| RemoveClient (client_socket : socket)
| BroadcastMessage (sendall : socket → string → result unit)
    (message_dict : list (string * Json.value))
    (exclude_socket : option socket)
| SendToClient (sendall : socket → string → result unit)
    (client_socket : socket) (message_dict : list (string * Json.value))
| CloseAllClients.

Definition step (self : hub) (c : call) : hub :=
  match c with
  | AddClient client_socket client_id =>
      add_client self client_socket client_id
  | RemoveClient client_socket => (remove_client self client_socket).2
  | BroadcastMessage sendall message_dict exclude_socket =>
      (broadcast_message json_dumps sendall self message_dict
         exclude_socket).2
  | SendToClient sendall client_socket message_dict =>
      (send_to_client json_dumps sendall self client_socket message_dict).2
  | CloseAllClients => close_all_clients self
  end.

Definition run (self : hub) (cs : list call) : hub :=
  foldl step self cs.

Definition is_broadcast (c : call) : bool :=
  match c with
  | BroadcastMessage _ _ _ => true
  | _ => false
  end.

End Builders.

End HubMessages.

(** * The bid rules and the session invariant *)

Section PlaceBid.
Import Py Clock AuctionLogic.

Lemma place_bid_inactive s user value now :
  is_active s = false →
  place_bid s user value now = ((false, "❌ Phiên đấu giá đã kết thúc"), s).
Proof. intros Hact. unfold place_bid. by rewrite Hact. Qed.

Lemma place_bid_not_positive s user value now :
  is_active s = true → value ≤ 0 →
  place_bid s user value now = ((false, "❌ Giá phải là số dương"), s).
Proof.
  intros Hact Hv. unfold place_bid. rewrite Hact. cbn [negb].
  by destruct (Z.leb_spec value 0); [|lia].
Qed.

Lemma place_bid_not_above s user value now :
  is_active s = true → 0 < value → value ≤ current_price s →
  place_bid s user value now =
    ((false, "❌ Giá phải lớn hơn $" +:+ str_int (current_price s)), s).
Proof.
  intros Hact Hv Hp. unfold place_bid. rewrite Hact. cbn [negb].
  destruct (Z.leb_spec value 0); [lia|].
  by destruct (Z.leb_spec value (current_price s)); [|lia].
Qed.

Lemma place_bid_below_increment s user value now :
  is_active s = true → 0 < value → current_price s < value →
  value < current_price s + min_increment s →
  place_bid s user value now =
    ((false,
      "❌ Giá tối thiểu phải là $" +:+
      str_int (current_price s + min_increment s) +:+
      " (tăng $" +:+ str_int (min_increment s) +:+ ")"), s).
Proof.
  intros Hact Hv Hp Hi. unfold place_bid. rewrite Hact. cbn [negb].
  destruct (Z.leb_spec value 0); [lia|].
  destruct (Z.leb_spec value (current_price s)); [lia|].
  cbv zeta.
  by destruct (Z.ltb_spec value (current_price s + min_increment s)); [|lia].
Qed.

Lemma place_bid_valid s user value now :
  is_active s = true → 0 < value → current_price s < value →
  current_price s + min_increment s ≤ value →
  place_bid s user value now =
    ((true,
      "✅ Bid thành công! " +:+ user +:+ " đang dẫn đầu với $" +:+
      str_int value),
     {| current_price := value;
        current_winner := Some user;
        starting_price := starting_price s;
        min_increment := min_increment s;
        is_active := true;
        bid_history :=
          bid_history s ++
          [{| user := user; value := value;
              timestamp := strftime_HMS now;
              bid_number := total_bids s + 1 |}];
        total_bids := total_bids s + 1;
        unique_bidders := unique_bidders s ∪ {[user]};
        start_time := start_time s;
        end_time := end_time s |}).
Proof.
  intros Hact Hv Hp Hi. unfold place_bid. rewrite Hact. cbn [negb].
  destruct (Z.leb_spec value 0); [lia|].
  destruct (Z.leb_spec value (current_price s)); [lia|].
  cbv zeta.
  by destruct (Z.ltb_spec value (current_price s + min_increment s)); [lia|].
Qed.

(** The five outcomes of [place_bid], by the first check that fails. *)
Lemma place_bid_cases s value :
  is_active s = false ∨
  (is_active s = true ∧ value ≤ 0) ∨
  (is_active s = true ∧ 0 < value ∧ value ≤ current_price s) ∨
  (is_active s = true ∧ 0 < value ∧ current_price s < value ∧
     value < current_price s + min_increment s) ∨
  (is_active s = true ∧ 0 < value ∧ current_price s < value ∧
     current_price s + min_increment s ≤ value).
Proof.
  destruct (is_active s); [|by left].
  destruct (decide (value ≤ 0)); [by right; left|].
  destruct (decide (value ≤ current_price s)); [right; right; left; lia|].
  destruct (decide (value < current_price s + min_increment s));
    [right; right; right; left; lia | right; right; right; right; lia].
Qed.

(** C1.  [place_bid] returns [false] and leaves the state as it was
    exactly when the auction is not active, or [value <= 0], or
    [value <= current_price], or
    [value < current_price + min_increment]; the checks run in that
    order and the first one that fails gives the message. *)
Theorem place_bid_rejection s user value now :
  (((place_bid s user value now).1.1 = false ∧
    (place_bid s user value now).2 = s) ↔
   (is_active s = false ∨ value ≤ 0 ∨ value ≤ current_price s ∨
    value < current_price s + min_increment s)) ∧
  (is_active s = false →
   (place_bid s user value now).1.2 = "❌ Phiên đấu giá đã kết thúc") ∧
  (is_active s = true → value ≤ 0 →
   (place_bid s user value now).1.2 = "❌ Giá phải là số dương") ∧
  (is_active s = true → 0 < value → value ≤ current_price s →
   (place_bid s user value now).1.2 =
     "❌ Giá phải lớn hơn $" +:+ str_int (current_price s)) ∧
  (is_active s = true → 0 < value → current_price s < value →
   value < current_price s + min_increment s →
   (place_bid s user value now).1.2 =
     "❌ Giá tối thiểu phải là $" +:+
     str_int (current_price s + min_increment s) +:+
     " (tăng $" +:+ str_int (min_increment s) +:+ ")").
Proof.
  split_and!.
  - destruct (place_bid_cases s value)
      as [Hc|[[Ha Hc]|[(Ha & H0 & Hc)|[(Ha & H0 & H1 & Hc)|(Ha & H0 & H1 & Hc)]]]].
    + rewrite place_bid_inactive by done. cbn [fst snd]. tauto.
    + rewrite place_bid_not_positive by done. cbn [fst snd]. tauto.
    + rewrite place_bid_not_above by done. cbn [fst snd]. tauto.
    + rewrite place_bid_below_increment by done. cbn [fst snd]. tauto.
    + rewrite place_bid_valid by done. cbn [fst snd]. split.
      * intros [? _]. done.
      * intros [?|?]; [congruence|lia].
  - intros. by rewrite place_bid_inactive.
  - intros. by rewrite place_bid_not_positive.
  - intros. by rewrite place_bid_not_above.
  - intros. by rewrite place_bid_below_increment.
Qed.

Lemma place_bid_rejection_witness :
  (place_bid (init 1000 50 0) "bob" 1020 1000000).1.2 =
    "❌ Giá tối thiểu phải là $1050 (tăng $50)".
Proof.
  apply (place_bid_rejection (init 1000 50 0) "bob" 1020 1000000);
    [reflexivity | lia | cbn; lia | cbn; lia].
Defined.

(** C2.  A bid on an active auction that passes the three price checks
    is accepted: the call returns [true], and afterwards the price is
    the bid, the winner is the bidder, [total_bids] is one more, the
    bidder is in [unique_bidders] and one record, numbered with the new
    [total_bids], is appended to [bid_history].  With the default
    session: alice's 1050 is accepted, bob's 1060 is rejected with a
    message naming 1100, bob's 1100 is accepted. *)
Theorem place_bid_acceptance :
  (∀ s user value now,
     is_active s = true → 0 < value → current_price s < value →
     current_price s + min_increment s ≤ value →
     let r := place_bid s user value now in
     r.1.1 = true ∧
     current_price r.2 = value ∧
     current_winner r.2 = Some user ∧
     total_bids r.2 = total_bids s + 1 ∧
     user ∈ unique_bidders r.2 ∧
     bid_history r.2 =
       bid_history s ++
       [{| user := user; value := value; timestamp := strftime_HMS now;
           bid_number := total_bids r.2 |}]) ∧
  (∀ t0 t1 t2 t3,
     let r1 := place_bid (init 1000 50 t0) "alice" 1050 t1 in
     let r2 := place_bid r1.2 "bob" 1060 t2 in
     let r3 := place_bid r2.2 "bob" 1100 t3 in
     r1.1.1 = true ∧ current_price r1.2 = 1050 ∧
     r2.1 = (false, "❌ Giá tối thiểu phải là $1100 (tăng $50)") ∧
     r2.2 = r1.2 ∧
     r3.1.1 = true ∧ current_price r3.2 = 1100 ∧
     current_winner r3.2 = Some "bob").
Proof.
  split.
  - intros s user value now Hact H0 H1 H2 r. subst r.
    rewrite place_bid_valid by done. cbn [fst snd].
    cbn [current_price current_winner total_bids unique_bidders bid_history].
    split_and!; try done. set_solver.
  - intros t0 t1 t2 t3.
    rewrite (place_bid_valid (init 1000 50 t0)) by (cbn; done || lia).
    cbn [fst snd].
    rewrite place_bid_below_increment by (cbn; done || lia).
    cbn [fst snd].
    rewrite place_bid_valid by (cbn; done || lia).
    cbn [fst snd current_price current_winner min_increment init].
    split_and!; try done.
Qed.

Lemma place_bid_acceptance_witness :
  let r := place_bid (init 1000 50 0) "alice" 1050 1000000 in
  r.1.1 = true ∧
  current_price r.2 = 1050 ∧
  current_winner r.2 = Some "alice" ∧
  total_bids r.2 = 0 + 1 ∧
  "alice" ∈ unique_bidders r.2 ∧
  bid_history r.2 =
    [] ++
    [{| user := "alice"; value := 1050; timestamp := "00:00:01";
        bid_number := total_bids r.2 |}].
Proof.
  apply (proj1 place_bid_acceptance (init 1000 50 0) "alice" 1050 1000000);
    [reflexivity | lia | cbn; lia | cbn; lia].
Defined.

(** The session invariant on [int] prices.  In every reachable state
    the price is at least the starting price and is the value of the
    last record of [bid_history] (the starting price when there is
    none), [bid_history] has [total_bids] records, and their
    [bid_number]s are 1, 2, ..., [total_bids] in order. *)
Theorem reachable_invariant s :
  reachable s →
  starting_price s ≤ current_price s ∧
  current_price s = from_option value (starting_price s) (last (bid_history s)) ∧
  Z.of_nat (length (bid_history s)) = total_bids s ∧
  bid_number <$> bid_history s = seqZ 1 (total_bids s).
Proof.
  induction 1 as [sp mi now|s c now Hs (IH1 & IH2 & IH3 & IH4)].
  - cbn. split_and!; done || lia.
  - destruct c as [user value| |p]; cbn [step].
    + destruct (place_bid_cases s value)
        as [Hc|[[Ha Hc]|[(Ha & H0 & Hc)|[(Ha & H0 & H1 & Hc)|(Ha & H0 & H1 & Hc)]]]].
      * by rewrite place_bid_inactive.
      * by rewrite place_bid_not_positive.
      * by rewrite place_bid_not_above.
      * by rewrite place_bid_below_increment.
      * rewrite place_bid_valid by done. cbn. split_and!.
        -- lia.
        -- by rewrite last_snoc.
        -- rewrite length_app. cbn. lia.
        -- rewrite fmap_app, IH4. cbn. rewrite <- IH3.
           replace (Z.of_nat (length (bid_history s)) + 1)
             with (Z.of_nat (S (length (bid_history s)))) by lia.
           rewrite seqZ_S. f_equal. f_equal. lia.
    + done.
    + cbn. split_and!; done || lia.
Qed.

Lemma reachable_invariant_witness :
  let s := (place_bid (init 1000 50 0) "alice" 1050 1000000).2 in
  starting_price s ≤ current_price s ∧
  current_price s = from_option value (starting_price s) (last (bid_history s)) ∧
  Z.of_nat (length (bid_history s)) = total_bids s ∧
  bid_number <$> bid_history s = seqZ 1 (total_bids s).
Proof.
  apply reachable_invariant.
  apply (reachable_step _ (PlaceBid "alice" 1050)), reachable_init.
Defined.
End PlaceBid.


(** * Statistics, ending and resetting *)

Section Lifecycle.
Import Py Clock AuctionLogic.

Lemma place_bid_keeps_lifecycle s user value now :
  is_active (place_bid s user value now).2 = is_active s ∧
  end_time (place_bid s user value now).2 = end_time s.
Proof.
  unfold place_bid. destruct (is_active s) eqn:Ha; cbn [negb]; [|done].
  destruct (value <=? 0); [done|].
  destruct (value <=? current_price s); [done|]. cbv zeta.
  by destruct (value <? current_price s + min_increment s).
Qed.

(** An auction that is not active has been ended, and one that has
    been ended is not active. *)
Lemma reachable_ended s :
  reachable s → is_active s = false ↔ is_Some (end_time s).
Proof.
  induction 1 as [sp mi now|s c now Hs IH].
  - cbn. split; [done|]. by intros [? ?].
  - destruct c as [user value| |p]; cbn [step].
    + by destruct (place_bid_keeps_lifecycle s user value now) as [-> ->].
    + cbn. split; eauto.
    + cbn. split; [done|]. by intros [? ?].
Qed.

Lemma reachable_duration s now :
  reachable s →
  duration s now =
    Some (match end_time s with
          | Some e => total_seconds e (start_time s)
          | None => total_seconds now (start_time s)
          end).
Proof.
  intros Hs. unfold duration. destruct (end_time s) eqn:He; [done|].
  destruct (is_active s) eqn:Ha; [done|].
  apply (reachable_ended s Hs) in Ha. rewrite He in Ha. by destruct Ha.
Qed.

Lemma get_statistics_duration s now d :
  duration s now = Some d →
  ∃ st, get_statistics s now = Ok st ∧
        Stats.duration_seconds st = Some d ∧
        Stats.avg_bid_interval st =
          if total_bids s >? 0 then (d / inject_Z (total_bids s))%Q else 0%Q.
Proof.
  intros Hd. unfold get_statistics. rewrite Hd.
  destruct (Z.gtb_spec (total_bids s) 0) as [Hpos|Hle].
  - unfold truediv. destruct (Z.eqb_spec (total_bids s) 0); [lia|].
    cbn. eauto.
  - cbn. eauto.
Qed.

(** C8.  [get_statistics] never divides by zero, in any state.  With no
    bids it returns [avg_bid_interval = 0]; with [total_bids > 0] it
    returns [avg_bid_interval = duration_seconds / total_bids] wherever
    the duration is a number, which it is in every state an
    [AuctionState] object can reach. *)
Theorem get_statistics_avg_bid_interval s now :
  get_statistics s now ≠ Raise ZeroDivisionError ∧
  (total_bids s = 0 →
   ∃ st, get_statistics s now = Ok st ∧ Stats.avg_bid_interval st = 0%Q) ∧
  (∀ d, duration s now = Some d → 0 < total_bids s →
   ∃ st, get_statistics s now = Ok st ∧
         Stats.duration_seconds st = Some d ∧
         Stats.avg_bid_interval st = (d / inject_Z (total_bids s))%Q) ∧
  (reachable s → 0 < total_bids s →
   ∃ st d, get_statistics s now = Ok st ∧
           Stats.duration_seconds st = Some d ∧
           Stats.avg_bid_interval st = (d / inject_Z (total_bids s))%Q).
Proof.
  assert (∀ d, duration s now = Some d → 0 < total_bids s →
            ∃ st, get_statistics s now = Ok st ∧
                  Stats.duration_seconds st = Some d ∧
                  Stats.avg_bid_interval st = (d / inject_Z (total_bids s))%Q)
    as Hdefined.
  { intros d Hd Hpos.
    destruct (get_statistics_duration s now d Hd) as (st & Hst & Hds & Havg).
    exists st. split_and!; [done..|].
    rewrite Havg. by destruct (Z.gtb_spec (total_bids s) 0); [|lia]. }
  split_and!; [| |done|].
  - unfold get_statistics.
    destruct (Z.gtb_spec (total_bids s) 0) as [Hpos|Hle]; [|done].
    unfold truediv. destruct (duration s now); [|done].
    by destruct (Z.eqb_spec (total_bids s) 0); [lia|].
  - intros Hz. unfold get_statistics. rewrite Hz. cbn. eauto.
  - intros Hs Hpos.
    destruct (Hdefined _ (reachable_duration s now Hs) Hpos) as (st & Hst).
    by exists st; eexists.
Qed.

Lemma get_statistics_avg_bid_interval_witness :
  let s := (place_bid (init 1000 50 0) "alice" 1050 1000000).2 in
  ∃ st d, get_statistics s 4000000 = Ok st ∧
          Stats.duration_seconds st = Some d ∧
          Stats.avg_bid_interval st = (d / inject_Z (total_bids s))%Q.
Proof.
  apply (get_statistics_avg_bid_interval
           (place_bid (init 1000 50 0) "alice" 1050 1000000).2 4000000).
  - apply (reachable_step _ (PlaceBid "alice" 1050)), reachable_init.
  - vm_compute. reflexivity.
Defined.

(** C9.  In every reachable state an auction that is not active has
    its [end_time] set; so [get_statistics] returns, and its
    [duration_seconds] is never [None]: it is [end_time - start_time]
    when [end_time] is set and the time elapsed since [start_time]
    otherwise. *)
Theorem reachable_duration_defined s :
  reachable s →
  (is_active s = false → is_Some (end_time s)) ∧
  ∀ now, ∃ st,
    get_statistics s now = Ok st ∧
    Stats.duration_seconds st =
      Some (match end_time s with
            | Some e => total_seconds e (start_time s)
            | None => total_seconds now (start_time s)
            end).
Proof.
  intros Hs. split; [apply (reachable_ended s Hs)|]. intros now.
  destruct (get_statistics_duration s now _ (reachable_duration s now Hs))
    as (st & Hst & Hd & _).
  by exists st.
Qed.

Lemma reachable_duration_defined_witness :
  let s := end_auction (init 1000 50 0) 5000000 in
  (is_active s = false → is_Some (end_time s)) ∧
  ∀ now, ∃ st,
    get_statistics s now = Ok st ∧
    Stats.duration_seconds st = Some (total_seconds 5000000 0).
Proof.
  apply (reachable_duration_defined (end_auction (init 1000 50 0) 5000000)).
  apply (reachable_step _ EndAuction), reachable_init.
Defined.

(** C5, as stated, fails: a second [end_auction] four seconds after the
    first moves [end_time], and the duration, from 5 s to 9 s. *)
Lemma end_auction_twice_moves_end_time :
  let s1 := end_auction (init 1000 50 0) 5000000 in
  let s2 := end_auction s1 9000000 in
  end_time s1 = Some 5000000 ∧
  end_time s2 = Some 9000000 ∧
  end_time s2 ≠ end_time s1 ∧
  ∀ now, duration s1 now = Some (5000000 # 1000000)%Q ∧
         duration s2 now = Some (9000000 # 1000000)%Q ∧
         duration s2 now ≠ duration s1 now.
Proof. cbn. split_and!; done. Qed.

(** C5, amended.  A second [end_auction] leaves the auction inactive
    and every other attribute as it was, and overwrites [end_time] with
    the time of the second call: the state is the one a single call at
    that time gives, and the duration is measured up to the second
    call. *)
Theorem end_auction_twice s t1 t2 :
  end_auction (end_auction s t1) t2 = end_auction s t2 ∧
  is_active (end_auction (end_auction s t1) t2) = false ∧
  end_time (end_auction (end_auction s t1) t2) = Some t2 ∧
  ∀ now,
    duration (end_auction (end_auction s t1) t2) now =
      Some (total_seconds t2 (start_time s)).
Proof. done. Qed.

Lemma reset_auction_fresh s p now :
  let s' := reset_auction s p now in
  current_price s' = starting_price s' ∧
  bid_history s' = [] ∧
  total_bids s' = 0 ∧
  unique_bidders s' = ∅ ∧
  current_winner s' = None ∧
  end_time s' = None ∧
  is_active s' = true ∧
  min_increment s' = min_increment s ∧
  start_time s' = now.
Proof. done. Qed.

Lemma reset_auction_starting_price s p now :
  starting_price (reset_auction s p now) =
    match p with
    | Some n => if decide (n = 0) then starting_price s else n
    | None => starting_price s
    end.
Proof.
  destruct p as [n|]; [|done]. cbn. unfold truthy.
  case_decide; destruct (Z.eqb_spec n 0); done.
Qed.

(** C6.  [reset_auction(0)] on a session that started at 1000: the
    argument is given, yet [starting_price] stays 1000. *)
Theorem reset_auction_given_zero :
  let s := init 1000 50 0 in
  starting_price (reset_auction s (Some 0) 1000000) = 1000 ∧
  starting_price (reset_auction s (Some 0) 1000000) ≠ 0 ∧
  current_price (reset_auction s (Some 0) 1000000) = 1000.
Proof. cbn. done. Qed.
End Lifecycle.


(** * The bid history *)

Section History.
Import Py Clock AuctionLogic.
Context {A : Type}.
Implicit Types h : list A.

Lemma slice_from_negative h n :
  0 < n → slice_from (- n) h = drop (length h - Z.to_nat n) h.
Proof.
  intros Hn. unfold slice_from.
  destruct (Z.ltb_spec (- n) 0); [|lia]. f_equal. lia.
Qed.

Lemma slice_from_positive h k :
  0 < k → slice_from k h = drop (Z.to_nat k) h.
Proof.
  intros Hk. unfold slice_from.
  destruct (Z.ltb_spec k 0); [lia|].
  destruct (Z.min_spec k (Z.of_nat (length h))) as [[? ->]|[? ->]]; [done|].
  rewrite Nat2Z.id, drop_all. symmetry. apply drop_ge. lia.
Qed.

Lemma history_slice_positive h n :
  0 < n → history_slice h (Some n) = drop (length h - Z.to_nat n) h.
Proof.
  intros Hn. unfold history_slice, truthy.
  destruct (Z.eqb_spec n 0); [lia|]. by apply slice_from_negative.
Qed.

Lemma history_slice_negative h k :
  0 < k → history_slice h (Some (- k)) = drop (Z.to_nat k) h.
Proof.
  intros Hk. unfold history_slice, truthy.
  destruct (Z.eqb_spec (- k) 0); [lia|].
  rewrite Z.opp_involutive. by apply slice_from_positive.
Qed.

Lemma history_slice_falsy h : 
  history_slice h None = h ∧ history_slice h (Some 0) = h.
Proof. done. Qed.

Lemma history_slice_fmap {B} (f : A → B) h limit :
  f <$> history_slice h limit = history_slice (f <$> h) limit.
Proof.
  unfold history_slice, slice_from. destruct limit as [n|]; [|done].
  destruct (truthy n); [|done]. by rewrite fmap_drop, length_fmap.
Qed.
End History.

Section Copies.
Import Py AuctionLogic Store.
Implicit Types σ : gmap positive obj.

Lemma alloc_fresh σ o : σ !! (alloc σ o).1 = None.
Proof. cbn. apply not_elem_of_dom, is_fresh. Qed.

Lemma record_at_insert σ r o i rec :
  σ !! r = None → record_at σ i = Some rec →
  record_at (<[r := o]> σ) i = Some rec.
Proof.
  unfold record_at. intros Hr Hi.
  destruct (decide (r = i)) as [->|Hne].
  - by rewrite Hr in Hi.
  - by rewrite lookup_insert_ne.
Qed.

Lemma mapM_record_at_insert σ r o items rs :
  σ !! r = None → mapM (record_at σ) items = Some rs →
  mapM (record_at (<[r := o]> σ)) items = Some rs.
Proof.
  intros Hr. rewrite !mapM_Some. intros Hrs.
  eapply Forall2_impl; [done|]. intros i rec. by apply record_at_insert.
Qed.

Lemma mapM_history_slice σ items rs limit :
  mapM (record_at σ) items = Some rs →
  mapM (record_at σ) (history_slice items limit) = Some (history_slice rs limit).
Proof.
  rewrite !mapM_Some. intros Hrs. unfold history_slice, slice_from.
  destruct limit as [n|]; [|done]. destruct (truthy n); [|done].
  rewrite <- (Forall2_length _ _ _ Hrs). by apply Forall2_drop.
Qed.
End Copies.

Section GetBidHistory.
Import Py Clock AuctionLogic.

(** C7, as stated, fails: after eleven accepted bids,
    [get_bid_history()] returns ten records, not the full history. *)
Lemma get_bid_history_unset_not_full :
  let s := run (init 1000 50 0) eleven_bids in
  length (bid_history s) = 11%nat ∧
  length (get_bid_history s Omitted) = 10%nat ∧
  get_bid_history s Omitted ≠ bid_history s.
Proof.
  assert (length (bid_history (run (init 1000 50 0) eleven_bids)) = 11%nat
          ∧ length (get_bid_history (run (init 1000 50 0) eleven_bids) Omitted) = 10%nat)
    as [H11 H10] by (by vm_compute).
  cbv zeta. split_and!; [done..|]. intros Heq. rewrite Heq in H10. lia.
Qed.

(** C7, amended.  For a positive [limit], [get_bid_history(limit)] is
    the last [min limit (len bid_history)] records in their order; for
    [None] and [0] it is the full history; without the argument it is
    [get_bid_history(10)].  The list returned is a new object over the
    same records: writing any items to it leaves the list behind
    [bid_history], and the records it shows, as they were. *)
Theorem get_bid_history_recent :
  (∀ s n, 0 < n →
     let r := get_bid_history s (Given (Some n)) in
     r = drop (length (bid_history s) - Z.to_nat n) (bid_history s) ∧
     length r = Nat.min (Z.to_nat n) (length (bid_history s)) ∧
     r `suffix_of` bid_history s) ∧
  (∀ s, get_bid_history s (Given None) = bid_history s ∧
        get_bid_history s (Given (Some 0)) = bid_history s ∧
        get_bid_history s Omitted = get_bid_history s (Given (Some 10))) ∧
  (∀ σ hist items limit,
     σ !! hist = Some (Store.ListObj items) →
     ∃ r σ',
       Store.get_bid_history σ hist limit = Some (r, σ') ∧
       σ !! r = None ∧
       σ' !! r = Some (Store.ListObj
                         (history_slice items (or_default (Some 10) limit))) ∧
       (∀ rs, Store.records σ hist = Some rs →
          Store.records σ' r =
            Some (history_slice rs (or_default (Some 10) limit))) ∧
       (∀ items',
          <[r := Store.ListObj items']> σ' !! hist = Some (Store.ListObj items) ∧
          Store.records (<[r := Store.ListObj items']> σ') hist =
            Store.records σ hist)).
Proof.
  split_and!.
  - intros s n Hn r. subst r. unfold get_bid_history. cbn [or_default].
    rewrite history_slice_positive by done.
    split_and!; [done| |apply suffix_drop]. rewrite length_drop. lia.
  - intros s. done.
  - intros σ hist items limit Hhist.
    set (new := Store.ListObj (history_slice items (or_default (Some 10) limit))).
    pose proof (alloc_fresh σ new) as Hfresh.
    exists (Store.alloc σ new).1, (Store.alloc σ new).2.
    assert ((Store.alloc σ new).1 ≠ hist) as Hne
      by (intros Heq; rewrite Heq in Hfresh; congruence).
    split_and!.
    + unfold Store.get_bid_history. rewrite Hhist. reflexivity.
    + done.
    + cbn. by rewrite lookup_insert_eq.
    + intros rs. unfold Store.records. rewrite Hhist. intros Hrs.
      cbn [Store.alloc fst snd]. rewrite lookup_insert_eq. cbn.
      apply mapM_record_at_insert; [done|]. by apply mapM_history_slice.
    + intros items'. cbn [Store.alloc snd]. rewrite insert_insert_eq.
      unfold Store.records. rewrite !lookup_insert_ne, Hhist by done.
      split; [done|].
      destruct (mapM (Store.record_at σ) items) as [rs|] eqn:Hrs.
      * by apply mapM_record_at_insert.
      * apply eq_None_not_Some. intros [rs Hrs'].
        apply mapM_Some in Hrs'.
        assert (mapM (Store.record_at σ) items = Some rs) as Hrs''; [|congruence].
        apply mapM_Some. eapply Forall2_impl; [done|]. intros i rec.
        unfold Store.record_at. destruct (decide ((Store.alloc σ new).1 = i)) as [<-|?].
        -- rewrite lookup_insert_eq. done.
        -- by rewrite lookup_insert_ne.
Qed.

Lemma get_bid_history_recent_witness :
  let s := run (init 1000 50 0) eleven_bids in
  let r := get_bid_history s (Given (Some 3)) in
  r = drop (length (bid_history s) - Z.to_nat 3) (bid_history s) ∧
  length r = Nat.min (Z.to_nat 3) (length (bid_history s)) ∧
  r `suffix_of` bid_history s.
Proof.
  apply (proj1 get_bid_history_recent (run (init 1000 50 0) eleven_bids) 3). lia.
Defined.

(** C10.  For [k > 0], [get_bid_history(-k)] returns the history
    without its first [k] records: nothing when [k] is at least the
    length, and not the [k] most recent records unless the history has
    exactly [2 * k] records. *)
Theorem get_bid_history_negative_limit s k :
  0 < k →
  let r := get_bid_history s (Given (Some (- k))) in
  r = drop (Z.to_nat k) (bid_history s) ∧
  (Z.of_nat (length (bid_history s)) ≤ k → r = []) ∧
  (k < Z.of_nat (length (bid_history s)) →
   Z.of_nat (length (bid_history s)) ≠ 2 * k →
   r ≠ get_bid_history s (Given (Some k))).
Proof.
  intros Hk r. subst r. unfold get_bid_history. cbn [or_default].
  rewrite history_slice_negative by done. split_and!; [done|..].
  - intros Hlen. apply drop_ge. lia.
  - intros Hlt Hne Heq. rewrite history_slice_positive in Heq by done.
    apply (f_equal length) in Heq. rewrite !length_drop in Heq. lia.
Qed.

Lemma get_bid_history_negative_limit_witness :
  let s := run (init 1000 50 0) eleven_bids in
  let r := get_bid_history s (Given (Some (- 3))) in
  r = drop (Z.to_nat 3) (bid_history s) ∧
  (Z.of_nat (length (bid_history s)) ≤ 3 → r = []) ∧
  (3 < Z.of_nat (length (bid_history s)) →
   Z.of_nat (length (bid_history s)) ≠ 2 * 3 →
   r ≠ get_bid_history s (Given (Some 3))).
Proof.
  apply (get_bid_history_negative_limit (run (init 1000 50 0) eleven_bids) 3). lia.
Defined.
End GetBidHistory.


(** * Broadcasting *)

Section Broadcast.
Import Py AuctionHub.
Context {socket : Type} `{Countable socket} {message : Type}.
Variable json_dumps : message → string.
Variable sendall : socket → string → result unit.
Implicit Types (self : AuctionHub (socket := socket)) (bytes : string).
Implicit Types (items : list (socket * string)) (ks : list socket).

Lemma send_item_all bytes acc item :
  send_item sendall None bytes acc item =
    if send_fails sendall bytes item.1 then (acc.1 ++ [item.1], acc.2)
    else (acc.1, acc.2 + 1).
Proof.
  unfold send_item, send_fails.
  rewrite bool_decide_eq_false_2 by (intros ?; discriminate).
  by destruct (sendall _ _).
Qed.

Lemma send_loop bytes items acc :
  foldl (send_item sendall None bytes) acc items =
    (acc.1 ++ (filter (λ kv, send_fails sendall bytes kv.1 = true) items).*1,
     acc.2 + Z.of_nat (length (filter (λ kv, send_fails sendall bytes kv.1 = false) items))).
Proof.
  revert acc. induction items as [|[k v] items IH]; intros [disc cnt].
  - cbn. by rewrite app_nil_r, Z.add_0_r.
  - cbn [foldl]. rewrite IH, send_item_all, !filter_cons. cbn [fst snd].
    destruct (send_fails sendall bytes k) eqn:Hf; cbn [fst snd];
      repeat case_decide; try congruence.
    + cbn [fmap list_fmap fst]. by rewrite <- app_assoc.
    + cbn [length]. f_equal. lia.
Qed.

Lemma remove_clients self ks :
  let self' := foldl (λ h k, (remove_client h k).2) self ks in
  message_count self' = message_count self ∧
  ∀ k, clients self' !! k =
         if decide (k ∈ ks) then None else clients self !! k.
Proof.
  revert self. induction ks as [|k0 ks IH]; intros self; cbn [foldl].
  - split; [done|]. intros k. rewrite decide_False; [done|apply not_elem_of_nil].
  - destruct (IH (remove_client self k0).2) as [IHm IHc]. split.
    + rewrite IHm. unfold remove_client. by destruct (clients self !! k0).
    + intros k. rewrite IHc. unfold remove_client.
      destruct (decide (k ∈ ks)) as [Hin|Hnin].
      * rewrite decide_True; [done|]. apply elem_of_cons. by right.
      * destruct (decide (k = k0)) as [->|Hne].
        -- rewrite decide_True by (apply elem_of_cons; by left).
           destruct (clients self !! k0) eqn:Hk0; cbn; [|done].
           by rewrite lookup_delete_eq.
        -- rewrite decide_False by (by apply not_elem_of_cons).
           destruct (clients self !! k0) eqn:Hk0; cbn; [|done].
           by rewrite lookup_delete_ne.
Qed.

Lemma size_filter_items (P : socket * string → Prop)
    `{!∀ kv, Decision (P kv)} (m : gmap socket string) :
  size (filter P m) = length (filter P (map_to_list m)).
Proof.
  rewrite map_filter_alt, <- length_map_to_list.
  apply Permutation_length, map_to_list_to_map.
  apply NoDup_fmap_fst.
  - intros k v1 v2 [_ Hv1]%list_elem_of_filter [_ Hv2]%list_elem_of_filter.
    apply elem_of_map_to_list in Hv1, Hv2. congruence.
  - apply NoDup_filter, NoDup_map_to_list.
Qed.

Lemma length_filter_split {B} (f : B → bool) (l : list B) :
  (length (filter (λ x, f x = true) l) +
   length (filter (λ x, f x = false) l) = length l)%nat.
Proof.
  induction l as [|x l IH]; [done|]. rewrite !filter_cons.
  destruct (f x); repeat case_decide; try congruence; cbn [length]; lia.
Qed.

(** C4.  With [R] registered connections of which [K] have a failing
    send, [broadcast_message(payload)] returns [R - K]; afterwards the
    failing connections are not registered, the others are registered
    as before, and [message_count] is one more. *)
Theorem broadcast_message_result self (payload : message) :
  let bytes := json_dumps payload +:+ newline in
  let R := size (clients self) in
  let K := size (filter (λ kv, send_fails sendall bytes kv.1 = true) (clients self)) in
  let r := broadcast_message json_dumps sendall self payload None in
  r.1 = Z.of_nat R - Z.of_nat K ∧
  (∀ k, send_fails sendall bytes k = true → clients r.2 !! k = None) ∧
  (∀ k, send_fails sendall bytes k = false → clients r.2 !! k = clients self !! k) ∧
  size (clients r.2) = (R - K)%nat ∧
  message_count r.2 = message_count self + 1.
Proof.
  intros bytes R K r. subst r. unfold broadcast_message. fold bytes.
  rewrite send_loop. cbn [fst snd app]. rewrite Z.add_0_l.
  set (failed := (filter (λ kv, send_fails sendall bytes kv.1 = true)
                    (map_to_list (clients self))).*1).
  destruct (remove_clients self failed) as [Hcount Hclients].
  assert (∀ k, k ∈ failed ↔ send_fails sendall bytes k = true ∧ is_Some (clients self !! k))
    as Hfailed.
  { intros k. unfold failed. rewrite list_elem_of_fmap. split.
    - intros [[k' v] [-> [Hf Hin]%list_elem_of_filter]].
      apply elem_of_map_to_list in Hin. eauto.
    - intros [Hf [v Hv]]. exists (k, v). split; [done|].
      apply list_elem_of_filter. split; [done|]. by apply elem_of_map_to_list. }
  assert (R = (K + length (filter (λ kv, send_fails sendall bytes kv.1 = false)
                              (map_to_list (clients self))))%nat) as HR.
  { unfold R, K. rewrite size_filter_items, <- length_map_to_list.
    symmetry. apply (length_filter_split (λ kv, send_fails sendall bytes kv.1)). }
  assert (clients (foldl (λ h k, (remove_client h k).2) self failed) =
          filter (λ kv, send_fails sendall bytes kv.1 = false) (clients self)) as Hmap.
  { apply map_eq. intros k. rewrite Hclients.
    destruct (decide (k ∈ failed)) as [Hin|Hnin].
    - apply Hfailed in Hin as [Hf _]. symmetry.
      apply map_lookup_filter_None. right. intros v _. cbn. congruence.
    - destruct (clients self !! k) as [v|] eqn:Hk.
      + symmetry. apply map_lookup_filter_Some. split; [done|]. cbn.
        destruct (send_fails sendall bytes k) eqn:Hf; [|done].
        exfalso. apply Hnin, Hfailed. eauto.
      + symmetry. apply map_lookup_filter_None. by left. }
  cbn [fst snd clients message_count]. split_and!.
  - lia.
  - intros k Hf. rewrite Hmap. apply map_lookup_filter_None. right.
    intros v _. cbn. congruence.
  - intros k Hf. rewrite Hmap.
    destruct (clients self !! k) as [v|] eqn:Hk.
    + by apply map_lookup_filter_Some.
    + apply map_lookup_filter_None. by left.
  - rewrite Hmap, size_filter_items. lia.
  - by rewrite Hcount.
Qed.
End Broadcast.

(** * Sessions of the auction *)

Section Sessions.
Import Py Clock AuctionLogic.

(** [reset_auction] builds the state the constructor builds. *)
Lemma reset_auction_init s p now :
  reset_auction s p now =
    init (starting_price (reset_auction s p now)) (min_increment s) now.
Proof. done. Qed.

(** Induction over the reachable states, with the accepted bid as the
    only case of [place_bid] that changes the state. *)
Lemma reachable_cases (P : AuctionState → Prop) :
  (∀ sp mi now, P (init sp mi now)) →
  (∀ s user value now,
     reachable s → P s → is_active s = true → 0 < value →
     current_price s < value → current_price s + min_increment s ≤ value →
     P (place_bid s user value now).2) →
  (∀ s now, reachable s → P s → P (end_auction s now)) →
  ∀ s, reachable s → P s.
Proof.
  intros Hinit Hbid Hend s. induction 1 as [sp mi now|s c now Hs IH].
  - apply Hinit.
  - destruct c as [user value| |p]; cbn [step].
    + destruct (place_bid_cases s value)
        as [Hc|[[Ha Hc]|[(Ha & H0 & Hc)|[(Ha & H0 & H1 & Hc)|(Ha & H0 & H1 & Hc)]]]].
      * by rewrite place_bid_inactive.
      * by rewrite place_bid_not_positive.
      * by rewrite place_bid_not_above.
      * by rewrite place_bid_below_increment.
      * by apply Hbid.
    + by apply Hend.
    + rewrite reset_auction_init. apply Hinit.
Qed.

Lemma place_bid_price_le s user value now :
  current_price s ≤ current_price (place_bid s user value now).2.
Proof.
  destruct (place_bid_cases s value)
    as [Hc|[[Ha Hc]|[(Ha & H0 & Hc)|[(Ha & H0 & H1 & Hc)|(Ha & H0 & H1 & Hc)]]]].
  - by rewrite place_bid_inactive.
  - by rewrite place_bid_not_positive.
  - by rewrite place_bid_not_above.
  - by rewrite place_bid_below_increment.
  - rewrite place_bid_valid by done. cbn. lia.
Qed.

(** X1.  With [int] prices and bids: over any sequence of [place_bid]
    and [end_auction] calls (no [reset_auction]) the price never goes
    down, and the starting price and the minimum increment stay as they
    are. *)
Theorem run_price_monotone s (cs : list (call * datetime)) :
  Forall (λ c, ∀ p, c.1 ≠ ResetAuction p) cs →
  current_price s ≤ current_price (run s cs) ∧
  starting_price (run s cs) = starting_price s ∧
  min_increment (run s cs) = min_increment s.
Proof.
  intros Hcs. revert s. induction Hcs as [|[c now] cs Hc _ IH]; intros s.
  - done.
  - cbn [run foldl]. destruct (IH (step s c now)) as (IHp & IHs & IHm).
    unfold run in *. rewrite IHs, IHm.
    destruct c as [user value| |p]; cbn [step] in *.
    + pose proof (place_bid_price_le s user value now).
      split; [lia|]. unfold place_bid.
      destruct (negb (is_active s)); [done|].
      destruct (value <=? 0); [done|].
      destruct (value <=? current_price s); [done|]. cbv zeta.
      by destruct (value <? current_price s + min_increment s).
    + done.
    + by destruct (Hc p).
Qed.

Lemma run_price_monotone_witness :
  let s := init 1000 50 0 in
  current_price s ≤ current_price (run s eleven_bids) ∧
  starting_price (run s eleven_bids) = starting_price s ∧
  min_increment (run s eleven_bids) = min_increment s.
Proof.
  apply (run_price_monotone (init 1000 50 0) eleven_bids).
  vm_compute. repeat constructor; intros p; discriminate.
Defined.

(** X2.  With [int] prices and bids: on an active auction with a
    non-negative price and a positive minimum increment, [place_bid]
    accepts a bid exactly when it is at least
    [get_required_next_bid()]; after an accepted bid the next required
    bid is that bid plus the minimum increment. *)
Theorem place_bid_threshold s user value now :
  is_active s = true → 0 ≤ current_price s → 0 < min_increment s →
  ((place_bid s user value now).1.1 = true ↔
   get_required_next_bid s ≤ value) ∧
  ((place_bid s user value now).1.1 = true →
   get_required_next_bid (place_bid s user value now).2 =
     value + min_increment s).
Proof.
  intros Hact Hp Hi. unfold get_required_next_bid.
  destruct (place_bid_cases s value)
    as [Hc|[[Ha Hc]|[(Ha & H0 & Hc)|[(Ha & H0 & H1 & Hc)|(Ha & H0 & H1 & Hc)]]]].
  - congruence.
  - rewrite place_bid_not_positive by done. cbn. split; [|done].
    split; [done|lia].
  - rewrite place_bid_not_above by done. cbn. split; [|done].
    split; [done|lia].
  - rewrite place_bid_below_increment by done. cbn. split; [|done].
    split; [done|lia].
  - rewrite place_bid_valid by done. cbn. done.
Qed.

Lemma place_bid_threshold_witness :
  let s := init 1000 50 0 in
  ((place_bid s "alice" 1050 1000000).1.1 = true ↔
   get_required_next_bid s ≤ 1050) ∧
  ((place_bid s "alice" 1050 1000000).1.1 = true →
   get_required_next_bid (place_bid s "alice" 1050 1000000).2 =
     1050 + min_increment s).
Proof.
  apply (place_bid_threshold (init 1000 50 0) "alice" 1050 1000000);
    [reflexivity | cbn; lia | cbn; lia].
Defined.

(** X3.  Once the auction is not active, any sequence of [place_bid]
    calls leaves the state exactly as it was, and each of them returns
    [False]. *)
Theorem ended_auction_ignores_bids s (cs : list (call * datetime)) :
  is_active s = false →
  Forall (λ c, ∃ user value, c.1 = PlaceBid user value) cs →
  run s cs = s ∧
  Forall (λ c, ∀ user value, c.1 = PlaceBid user value →
                 (place_bid s user value c.2).1.1 = false) cs.
Proof.
  intros Hact Hcs. induction Hcs as [|[c now] cs (user & value & Hc) _ IH].
  - done.
  - cbn in Hc. subst c. cbn [run foldl step].
    rewrite place_bid_inactive by done. cbn [snd]. split; [apply IH|].
    constructor; [|apply IH]. intros u v _. by rewrite place_bid_inactive.
Qed.

Lemma ended_auction_ignores_bids_witness :
  let s := end_auction (init 1000 50 0) 500000 in
  run s eleven_bids = s ∧
  Forall (λ c, ∀ user value, c.1 = PlaceBid user value →
                 (place_bid s user value c.2).1.1 = false) eleven_bids.
Proof.
  apply (ended_auction_ignores_bids (end_auction (init 1000 50 0) 500000)
           eleven_bids); [reflexivity|].
  vm_compute. repeat constructor; eauto.
Defined.

(** X4.  In every reachable state [current_winner] is the user of the
    last record of [bid_history], and it is [None] exactly when no bid
    has been accepted. *)
Theorem reachable_winner s :
  reachable s →
  current_winner s = user <$> last (bid_history s) ∧
  (current_winner s = None ↔ bid_history s = []).
Proof.
  revert s. apply reachable_cases.
  - done.
  - intros s user value now _ _ Ha H0 H1 H2.
    rewrite place_bid_valid by done. cbn. rewrite last_snoc. split; [done|].
    split; [done|]. intros Hnil. by destruct (bid_history s).
  - done.
Qed.

Lemma reachable_winner_witness :
  let s := (place_bid (init 1000 50 0) "alice" 1050 1000000).2 in
  current_winner s = user <$> last (bid_history s) ∧
  (current_winner s = None ↔ bid_history s = []).
Proof.
  apply reachable_winner.
  apply (reachable_step _ (PlaceBid "alice" 1050)), reachable_init.
Defined.

(** X5.  In every reachable state [unique_bidders] is the set of users
    that occur in [bid_history]; so it never has more members than
    there are accepted bids. *)
Theorem reachable_unique_bidders s :
  reachable s →
  unique_bidders s = list_to_set (user <$> bid_history s) ∧
  (size (unique_bidders s) ≤ length (bid_history s))%nat.
Proof.
  revert s. apply reachable_cases.
  - done.
  - intros s user value now _ [IH1 IH2] Ha H0 H1 H2.
    rewrite place_bid_valid by done. cbn. split.
    + by rewrite fmap_snoc, list_to_set_snoc_L, IH1.
    + rewrite length_app, size_union_alt. cbn.
      assert (size ({[user]} ∖ unique_bidders s : gset string) ≤ 1)%nat; [|lia].
      rewrite <- (size_singleton (C := gset string) user).
      apply subseteq_size, subseteq_difference_l. done.
  - done.
Qed.

Lemma reachable_unique_bidders_witness :
  let s := run (init 1000 50 0) eleven_bids in
  unique_bidders s = list_to_set (user <$> bid_history s) ∧
  (size (unique_bidders s) ≤ length (bid_history s))%nat.
Proof.
  apply reachable_unique_bidders.
  unfold eleven_bids. cbn. repeat apply reachable_step. apply reachable_init.
Defined.

Lemma reachable_history_numbers s :
  reachable s →
  Z.of_nat (length (bid_history s)) = total_bids s ∧
  bid_number <$> bid_history s = seqZ 1 (total_bids s).
Proof.
  revert s. apply reachable_cases.
  - done.
  - intros s user value now _ [IH1 IH2] Ha H0 H1 H2.
    rewrite place_bid_valid by done. cbn. split.
    + rewrite length_app. cbn. lia.
    + rewrite fmap_snoc, IH2. cbn. rewrite <- IH1.
      replace (Z.of_nat (length (bid_history s)) + 1)
        with (Z.of_nat (S (length (bid_history s)))) by lia.
      rewrite seqZ_S. f_equal. f_equal. lia.
  - done.
Qed.

Lemma reachable_price_last s :
  reachable s →
  current_price s = from_option value (starting_price s) (last (bid_history s)).
Proof.
  revert s. apply reachable_cases.
  - done.
  - intros s user value now _ _ Ha H0 H1 H2.
    rewrite place_bid_valid by done. cbn. by rewrite last_snoc.
  - done.
Qed.

(** X6.  With [int] prices and bids: in every reachable state the
    values in [bid_history] increase
    strictly, each by at least the minimum increment over the one
    before; every recorded value is above the starting price, at least
    the starting price plus the increment, and at most the current
    price. *)
Theorem reachable_history_increasing s :
  reachable s →
  (∀ i r1 r2,
     bid_history s !! i = Some r1 → bid_history s !! S i = Some r2 →
     value r1 < value r2 ∧ value r1 + min_increment s ≤ value r2) ∧
  (∀ r, r ∈ bid_history s →
     starting_price s < value r ∧
     starting_price s + min_increment s ≤ value r ∧
     value r ≤ current_price s).
Proof.
  intros Hs. pattern s. revert s Hs. apply reachable_cases.
  - cbn. split; [done|]. intros r Hr. by apply elem_of_nil in Hr.
  - intros s user value now Hs [IH1 IH2] Ha H0 H1 H2.
    pose proof (reachable_price_last s Hs) as Hlast.
    assert (starting_price s ≤ current_price s) as Hsp.
    { rewrite Hlast. destruct (last (bid_history s)) as [r|] eqn:Hr; cbn; [|lia].
      apply last_Some_elem_of in Hr. apply IH2 in Hr. lia. }
    rewrite place_bid_valid by done. cbn. split.
    + intros i r1 r2 Hr1 Hr2.
      apply lookup_snoc_Some in Hr2 as [[Hlt Hr2]|[Hlen <-]].
      * rewrite lookup_app_l in Hr1 by lia. by apply (IH1 i).
      * rewrite lookup_app_l in Hr1 by lia. cbn.
        rewrite last_lookup, <- Hlen in Hlast. cbn in Hlast.
        rewrite Hr1 in Hlast. cbn in Hlast. lia.
    + intros r [Hr| ->%list_elem_of_singleton]%elem_of_app.
      * apply IH2 in Hr. lia.
      * cbn. lia.
  - done.
Qed.

Lemma reachable_history_increasing_witness :
  let s := run (init 1000 50 0) eleven_bids in
  (∀ i r1 r2,
     bid_history s !! i = Some r1 → bid_history s !! S i = Some r2 →
     value r1 < value r2 ∧ value r1 + min_increment s ≤ value r2) ∧
  (∀ r, r ∈ bid_history s →
     starting_price s < value r ∧
     starting_price s + min_increment s ≤ value r ∧
     value r ≤ current_price s).
Proof.
  apply reachable_history_increasing.
  unfold eleven_bids. cbn. repeat apply reachable_step. apply reachable_init.
Defined.

Lemma reachable_counters s :
  reachable s →
  starting_price s ≤ current_price s ∧
  starting_price s + total_bids s * min_increment s ≤ current_price s ∧
  0 ≤ Z.of_nat (size (unique_bidders s)) ≤ total_bids s.
Proof.
  revert s. apply reachable_cases.
  - cbn. rewrite size_empty. lia.
  - intros s user value now _ (IH1 & IH2 & IH3) Ha H0 H1 H2.
    rewrite place_bid_valid by done. cbn. split_and!; try lia.
    rewrite size_union_alt.
    assert (size ({[user]} ∖ unique_bidders s : gset string) ≤ 1)%nat; [|lia].
    rewrite <- (size_singleton (C := gset string) user).
    apply subseteq_size, subseteq_difference_l. done.
  - done.
Qed.

(** X8.  Once [end_time] is set, [get_statistics] no longer depends on
    the clock: two calls at different times return the same dict. *)
Theorem get_statistics_frozen s now1 now2 :
  is_Some (end_time s) →
  get_statistics s now1 = get_statistics s now2.
Proof.
  intros [e He]. unfold get_statistics, duration. by rewrite He.
Qed.

Lemma get_statistics_frozen_witness :
  get_statistics (end_auction (init 1000 50 0) 5000000) 6000000 =
  get_statistics (end_auction (init 1000 50 0) 5000000) 9000000.
Proof.
  apply get_statistics_frozen. cbn. eauto.
Defined.

(** X9.  [get_statistics] raises only [TypeError], and exactly in a
    state that is not active, has no [end_time] and has
    [total_bids > 0] (where it divides [None] by [total_bids]). *)
Theorem get_statistics_raises s now :
  (∀ e, get_statistics s now = Raise e → e = TypeError) ∧
  ((∃ e, get_statistics s now = Raise e) ↔
   is_active s = false ∧ end_time s = None ∧ 0 < total_bids s).
Proof.
  unfold get_statistics, duration, truediv.
  destruct (end_time s) as [t|]; destruct (is_active s);
    destruct (Z.gtb_spec (total_bids s) 0);
    try destruct (Z.eqb_spec (total_bids s) 0); try lia; cbn.
  all: split; [intros err; congruence|].
  all: split; [intros [err Herr]; try done; try (split_and!; done)
              |intros (? & ? & ?); try done; try lia; eauto].
Qed.

(** X10.  [reset_auction] gives exactly the state the constructor gives
    with the old minimum increment and with the new starting price when
    one is given and is not 0 (the old one otherwise); any session
    after a reset runs as on a new object. *)
Theorem reset_auction_run s p now (cs : list (call * datetime)) :
  let sp := match p with
            | Some n => if decide (n = 0) then starting_price s else n
            | None => starting_price s
            end in
  reset_auction s p now = init sp (min_increment s) now ∧
  run (reset_auction s p now) cs = run (init sp (min_increment s) now) cs.
Proof.
  intros sp.
  assert (reset_auction s p now = init sp (min_increment s) now) as ->; [|done].
  rewrite reset_auction_init. f_equal. apply reset_auction_starting_price.
Qed.

Lemma drop_seqZ m (n k : nat) :
  (k ≤ n)%nat →
  drop k (seqZ m (Z.of_nat n)) = seqZ (m + Z.of_nat k) (Z.of_nat (n - k)).
Proof.
  intros Hk. replace (Z.of_nat n) with (Z.of_nat k + Z.of_nat (n - k)) by lia.
  rewrite seqZ_app by lia. apply drop_app_length'.
  by rewrite length_seqZ, Nat2Z.id.
Qed.

(** X11.  In a reachable state, for [limit > 0], the bid numbers of
    [get_bid_history(limit)] are the last [min limit total_bids]
    numbers up to [total_bids], in order. *)
Theorem get_bid_history_numbers s n :
  reachable s → 0 < n →
  let m := Z.min n (total_bids s) in
  bid_number <$> get_bid_history s (Given (Some n)) =
    seqZ (total_bids s - m + 1) m.
Proof.
  intros Hs Hn m. subst m.
  destruct (reachable_history_numbers s Hs) as [Hlen Hnum].
  unfold get_bid_history. cbn [or_default].
  rewrite history_slice_positive, fmap_drop, Hnum, <- Hlen by done.
  rewrite drop_seqZ by lia. f_equal; lia.
Qed.

Lemma get_bid_history_numbers_witness :
  let s := run (init 1000 50 0) eleven_bids in
  bid_number <$> get_bid_history s (Given (Some 3)) =
    seqZ (total_bids s - Z.min 3 (total_bids s) + 1) (Z.min 3 (total_bids s)).
Proof.
  apply (get_bid_history_numbers (run (init 1000 50 0) eleven_bids) 3); [|lia].
  unfold eleven_bids. cbn. repeat apply reachable_step. apply reachable_init.
Defined.

(** X7.  With [int] prices and bids: in every reachable state
    [get_statistics] returns, with
    [price_increase >= 0], [price_increase >= total_bids * min_increment],
    [0 <= unique_bidders <= total_bids], and, exactly when the auction
    is not active, [duration_seconds = end_time - start_time]. *)
Theorem reachable_statistics s now :
  reachable s →
  ∃ st, get_statistics s now = Ok st ∧
        0 ≤ Stats.price_increase st ∧
        Stats.total_bids st * min_increment s ≤ Stats.price_increase st ∧
        0 ≤ Stats.unique_bidders st ≤ Stats.total_bids st ∧
        (Stats.is_active st = false ↔
         Stats.duration_seconds st =
           (λ e, total_seconds e (start_time s)) <$> end_time s).
Proof.
  intros Hs.
  destruct (get_statistics_duration s now _ (reachable_duration s now Hs))
    as (st & Hst & Hd & _).
  exists st. split; [done|].
  assert (Stats.total_bids st = total_bids s ∧
          Stats.unique_bidders st = Z.of_nat (size (unique_bidders s)) ∧
          Stats.price_increase st = current_price s - starting_price s ∧
          Stats.is_active st = is_active s) as (-> & -> & -> & ->).
  { unfold get_statistics in Hst.
    destruct (if total_bids s >? 0 then _ else _); [|done].
    cbn in Hst. by injection Hst as <-. }
  rewrite Hd.
  destruct (reachable_counters s Hs) as (Hp & Hb & Hu).
  split_and!; try lia.
  rewrite (reachable_ended s Hs).
  destruct (end_time s) as [e|]; cbn; split; eauto; try done.
Qed.

Lemma reachable_statistics_witness :
  let s := run (init 1000 50 0) eleven_bids in
  ∃ st, get_statistics s 20000000 = Ok st ∧
        0 ≤ Stats.price_increase st ∧
        Stats.total_bids st * min_increment s ≤ Stats.price_increase st ∧
        0 ≤ Stats.unique_bidders st ≤ Stats.total_bids st ∧
        (Stats.is_active st = false ↔
         Stats.duration_seconds st =
           (λ e, total_seconds e (start_time s)) <$> end_time s).
Proof.
  apply reachable_statistics.
  unfold eleven_bids. cbn. repeat apply reachable_step. apply reachable_init.
Defined.
End Sessions.


(** * The registry of the hub *)

Section Registry.
Import Py AuctionHub.
Context {socket : Type} `{Countable socket} {message : Type}.
Variable json_dumps : message → string.
Variable sendall : socket → string → result unit.
Implicit Types (self : AuctionHub (socket := socket)) (bytes : string).
Implicit Types (items : list (socket * string)) (k : socket).

Lemma hub_eq self1 self2 :
  clients self1 = clients self2 → message_count self1 = message_count self2 →
  self1 = self2.
Proof. destruct self1, self2. cbn. by intros -> ->. Qed.

(** X12.  [remove_client] after [add_client] of the same connection
    returns the id just registered and leaves the registry without that
    connection; when the connection was not registered before, the hub
    is back to what it was. *)
Theorem add_then_remove_client self k client_id :
  (remove_client (add_client self k client_id) k).1 = Some client_id ∧
  clients (remove_client (add_client self k client_id) k).2 =
    delete k (clients self) ∧
  (clients self !! k = None →
   (remove_client (add_client self k client_id) k).2 = self) ∧
  clients (add_client self k client_id) !! k = Some client_id.
Proof.
  unfold remove_client, add_client. cbn [clients message_count].
  rewrite lookup_insert_eq. cbn [fst snd clients]. rewrite delete_insert_eq.
  split_and!; [done..| |done]. intros Hk. apply hub_eq; cbn; [|done].
  by apply delete_id.
Qed.


(** X13.  [remove_client] returns the registered id, or [None] for a
    connection that is not registered, in which case the hub is
    unchanged; removing twice returns [None] the second time; no other
    connection is touched. *)
Theorem remove_client_absent self k :
  (clients self !! k = None → remove_client self k = (None, self)) ∧
  remove_client (remove_client self k).2 k = (None, (remove_client self k).2) ∧
  (remove_client self k).1 = clients self !! k ∧
  ∀ k', k' ≠ k →
    clients (remove_client self k).2 !! k' = clients self !! k'.
Proof.
  unfold remove_client. split_and!.
  - by intros ->.
  - destruct (clients self !! k) eqn:Hk; cbn.
    + by rewrite lookup_delete_eq.
    + by rewrite Hk.
  - by destruct (clients self !! k).
  - intros k' Hne. destruct (clients self !! k); cbn; [|done].
    by rewrite lookup_delete_ne.
Qed.


(** X14.  [add_client] raises [get_client_count] by one for a new
    connection and leaves it for a registered one (whose id it
    replaces); [remove_client] lowers it by one for a registered
    connection and leaves it otherwise; the count is never negative. *)
Theorem get_client_count_changes self k client_id :
  get_client_count (add_client self k client_id) =
    (if clients self !! k is Some _ then get_client_count self
     else get_client_count self + 1) ∧
  get_client_count (remove_client self k).2 =
    (if clients self !! k is Some _ then get_client_count self - 1
     else get_client_count self) ∧
  0 ≤ get_client_count self.
Proof.
  unfold get_client_count, add_client, remove_client. cbn [clients].
  destruct (clients self !! k) as [old|] eqn:Hk; cbn [snd clients].
  - rewrite map_size_insert_Some, map_size_delete_Some by eauto.
    assert (size (clients self) ≠ 0%nat); [|lia].
    intros Hz%map_size_empty_inv. by rewrite Hz, lookup_empty in Hk.
  - rewrite map_size_insert_None by done. lia.
Qed.

(** X15.  [get_client_list] has as many ids as there are registered
    connections, and after [add_client] of a new connection it is the
    old list with the new id added, up to order. *)
Theorem get_client_list_add self k client_id :
  length (get_client_list self) = size (clients self) ∧
  (clients self !! k = None →
   get_client_list (add_client self k client_id) ≡ₚ
     client_id :: get_client_list self).
Proof.
  unfold get_client_list, add_client. cbn [clients]. split.
  - by rewrite length_fmap, length_map_to_list.
  - intros Hk. by rewrite map_to_list_insert.
Qed.


Lemma send_item_excluding exclude bytes acc item :
  send_item sendall exclude bytes acc item =
    if decide (exclude = Some item.1) then acc
    else if send_fails sendall bytes item.1 then (acc.1 ++ [item.1], acc.2)
         else (acc.1, acc.2 + 1).
Proof.
  unfold send_item, send_fails. case_bool_decide; case_decide; try done.
  by destruct (sendall _ _).
Qed.

(** The loop of [broadcast_message] with an excluded connection. *)
Lemma send_loop_excluding exclude bytes items acc :
  foldl (send_item sendall exclude bytes) acc items =
    (acc.1 ++
       (filter (λ kv, exclude ≠ Some kv.1 ∧ send_fails sendall bytes kv.1 = true)
          items).*1,
     acc.2 +
       Z.of_nat
         (length
            (filter (λ kv, exclude ≠ Some kv.1 ∧
                           send_fails sendall bytes kv.1 = false) items))).
Proof.
  revert acc. induction items as [|[k v] items IH]; intros [disc cnt].
  - cbn. by rewrite app_nil_r, Z.add_0_r.
  - cbn [foldl]. rewrite IH, send_item_excluding, !filter_cons. cbn [fst snd].
    destruct (decide (exclude = Some k)) as [He|He].
    + rewrite !decide_False by (by intros [? _]). done.
    + destruct (send_fails sendall bytes k) eqn:Hf; cbn [fst snd].
      * rewrite decide_True by done.
        rewrite decide_False by (by intros [_ ?]).
        cbn [fmap list_fmap fst]. by rewrite <- app_assoc.
      * rewrite decide_False by (by intros [_ ?]).
        rewrite decide_True by done. cbn [length]. f_equal. lia.
Qed.

(** [broadcast_message] in one equation: who is counted, who stays. *)
Lemma broadcast_message_filter self (payload : message) exclude :
  let bytes := json_dumps payload +:+ newline in
  broadcast_message json_dumps sendall self payload exclude =
    (Z.of_nat
       (size (filter (λ kv, exclude ≠ Some kv.1 ∧
                            send_fails sendall bytes kv.1 = false)
                (clients self))),
     {| clients :=
          filter (λ kv, exclude = Some kv.1 ∨
                        send_fails sendall bytes kv.1 = false) (clients self);
        message_count := message_count self + 1 |}).
Proof.
  intros bytes. unfold broadcast_message. fold bytes.
  rewrite send_loop_excluding. cbn [fst snd app]. rewrite Z.add_0_l.
  set (failed := (filter _ (map_to_list (clients self))).*1).
  destruct (remove_clients self failed) as [Hcount Hclients].
  rewrite Hcount, size_filter_items. f_equal. f_equal.
  apply map_eq. intros k. rewrite Hclients.
  assert (k ∈ failed ↔
          (exclude ≠ Some k ∧ send_fails sendall bytes k = true) ∧
          is_Some (clients self !! k)) as Hfailed.
  { unfold failed. rewrite list_elem_of_fmap. split.
    - intros [[k' v] [-> [Hf Hin]%list_elem_of_filter]].
      apply elem_of_map_to_list in Hin. eauto.
    - intros [Hf [v Hv]]. exists (k, v). split; [done|].
      apply list_elem_of_filter. split; [done|]. by apply elem_of_map_to_list. }
  destruct (decide (k ∈ failed)) as [Hin|Hnin].
  - apply Hfailed in Hin as [[He Hf] _]. symmetry.
    apply map_lookup_filter_None. right. intros v _ [?|?]; cbn in *; congruence.
  - destruct (clients self !! k) as [v|] eqn:Hk.
    + symmetry. apply map_lookup_filter_Some. split; [done|]. cbn.
      destruct (decide (exclude = Some k)); [by left|].
      destruct (send_fails sendall bytes k) eqn:Hf; [|by right].
      exfalso. apply Hnin, Hfailed. eauto.
    + symmetry. apply map_lookup_filter_None. by left.
Qed.

(** X16.  [broadcast_message] with an excluded connection: that
    connection stays as it was, even when its send would fail; every
    other connection whose send fails is removed, those whose send
    returns stay; the result counts the connections other than the
    excluded one whose send returns; [message_count] is one more. *)
Theorem broadcast_message_excluding self (payload : message) e :
  let bytes := json_dumps payload +:+ newline in
  let r := broadcast_message json_dumps sendall self payload (Some e) in
  clients r.2 !! e = clients self !! e ∧
  (∀ k, k ≠ e → send_fails sendall bytes k = true → clients r.2 !! k = None) ∧
  (∀ k, send_fails sendall bytes k = false →
        clients r.2 !! k = clients self !! k) ∧
  r.1 = Z.of_nat
          (size (filter (λ kv, send_fails sendall bytes kv.1 = false)
                   (delete e (clients self)))) ∧
  message_count r.2 = message_count self + 1.
Proof.
  intros bytes r. subst r. rewrite broadcast_message_filter. fold bytes.
  cbn [fst snd clients message_count]. split_and!.
  - destruct (clients self !! e) as [v|] eqn:He.
    + apply map_lookup_filter_Some. split; [done|]. by left.
    + apply map_lookup_filter_None. by left.
  - intros k Hne Hf. apply map_lookup_filter_None. right.
    intros v _ [?|?]; cbn in *; congruence.
  - intros k Hf. destruct (clients self !! k) as [v|] eqn:Hk.
    + apply map_lookup_filter_Some. split; [done|]. by right.
    + apply map_lookup_filter_None. by left.
  - do 2 f_equal. apply map_eq. intros k.
    rewrite !map_lookup_filter, lookup_delete.
    destruct (decide (e = k)) as [->|Hne].
    + destruct (clients self !! k); cbn; [|done].
      by rewrite option_guard_False by (by intros [? _]).
    + destruct (clients self !! k); cbn; [|done].
      destruct (decide (send_fails sendall bytes k = false)).
      * by rewrite !option_guard_True by (done || split; congruence).
      * by rewrite !option_guard_False by (done || by intros [_ ?]).
  - done.
Qed.

(** Without an excluded connection, the connections whose send
    returns are counted and stay. *)
Lemma broadcast_message_all self (payload : message) :
  let bytes := json_dumps payload +:+ newline in
  let ok := filter (λ kv, send_fails sendall bytes kv.1 = false) (clients self) in
  broadcast_message json_dumps sendall self payload None =
    (Z.of_nat (size ok),
     {| clients := ok; message_count := message_count self + 1 |}).
Proof.
  intros bytes ok. rewrite broadcast_message_filter. fold bytes. subst ok.
  f_equal; [f_equal; f_equal|f_equal]; apply map_filter_ext; intros k v _; cbn.
  - split; [by intros [_ ?]|]. intros Hf. split; [discriminate|done].
  - split; [by intros [?|?]|]. intros Hf. by right.
Qed.

(** X17.  After a broadcast, a second broadcast of the same message to
    connections that behave the same removes nobody and returns the
    same count, the number of registered connections; [message_count]
    has grown by two. *)
Theorem broadcast_message_again self (payload : message) :
  let r1 := broadcast_message json_dumps sendall self payload None in
  let r2 := broadcast_message json_dumps sendall r1.2 payload None in
  r2.1 = r1.1 ∧
  r2.1 = Z.of_nat (size (clients r1.2)) ∧
  clients r2.2 = clients r1.2 ∧
  message_count r2.2 = message_count self + 2.
Proof.
  intros r1 r2. subst r1 r2. rewrite (broadcast_message_all self).
  cbn [fst snd]. rewrite broadcast_message_all. cbn [fst snd clients message_count].
  set (bytes := json_dumps payload +:+ newline).
  set (ok := filter _ (clients self)).
  assert (filter (λ kv, send_fails sendall bytes kv.1 = false) ok = ok) as ->.
  { apply map_filter_id. by intros k v [_ Hf]%map_lookup_filter_Some. }
  split_and!; [done..|lia].
Qed.

(** X18.  [send_to_client] returns whether the send returned; on
    success the hub is unchanged, on failure the connection is no
    longer registered; [message_count] is never changed. *)
Theorem send_to_client_result self k (payload : message) :
  let bytes := json_dumps payload +:+ newline in
  let r := send_to_client json_dumps sendall self k payload in
  r.1 = negb (send_fails sendall bytes k) ∧
  (r.1 = true → r.2 = self) ∧
  (r.1 = false →
   clients r.2 = delete k (clients self) ∧ clients r.2 !! k = None) ∧
  message_count r.2 = message_count self.
Proof.
  intros bytes r. subst r. unfold send_to_client, send_fails. fold bytes.
  destruct (sendall k bytes); cbn [fst snd negb].
  - done.
  - unfold remove_client. split_and!; try done.
    + intros _. destruct (clients self !! k) eqn:Hk; cbn.
      * split; [done|]. apply lookup_delete_eq.
      * split; [|done]. symmetry. by apply delete_id.
    + by destruct (clients self !! k).
Qed.

(** X19.  After [close_all_clients] the registry is empty: every
    broadcast returns 0 and only raises [message_count],
    [get_client_count] is 0 and [remove_client] returns [None]. *)
Theorem broadcast_message_empty self (payload : message) exclude :
  broadcast_message json_dumps sendall (close_all_clients self) payload exclude =
    (0, {| clients := ∅; message_count := message_count self + 1 |}) ∧
  get_client_count (close_all_clients self) = 0 ∧
  ∀ k, remove_client (close_all_clients self) k = (None, close_all_clients self).
Proof.
  split_and!.
  - unfold broadcast_message, close_all_clients. cbn [clients].
    by rewrite map_to_list_empty.
  - unfold get_client_count. cbn. by rewrite map_size_empty.
  - intros k. unfold remove_client. cbn. by rewrite lookup_empty.
Qed.
End Registry.

Section RegistryExamples.
Import Py AuctionHub.

Lemma add_then_remove_client_witness :
  (remove_client (add_client (init (socket := nat)) 7%nat "alice") 7%nat).2 =
    init.
Proof.
  apply (add_then_remove_client (init (socket := nat)) 7%nat "alice").
  reflexivity.
Defined.

Lemma remove_client_absent_witness :
  remove_client (init (socket := nat)) 7%nat = (None, init).
Proof.
  apply (proj1 (remove_client_absent (init (socket := nat)) 7%nat)).
  reflexivity.
Defined.

Lemma get_client_list_add_witness :
  get_client_list (add_client (init (socket := nat)) 7%nat "alice") ≡ₚ
    "alice" :: get_client_list (init (socket := nat)).
Proof.
  apply (get_client_list_add (init (socket := nat)) 7%nat "alice").
  reflexivity.
Defined.
Lemma broadcast_message_excluding_witness :
  let sendall := λ (k : nat) (_ : string),
    if (k =? 2)%nat then Raise OSError else Ok () in
  let self :=
    add_client (add_client (add_client init 1%nat "a") 2%nat "b") 3%nat "c" in
  clients (broadcast_message (λ m : string, m) sendall self "hello"
             (Some 1%nat)).2 !! 2%nat = None.
Proof.
  intros sendall self.
  apply (broadcast_message_excluding (λ m : string, m) sendall self "hello"
           1%nat); [lia|reflexivity].
Defined.

Lemma send_to_client_result_witness :
  let sendall := λ (k : nat) (_ : string),
    if (k =? 2)%nat then Raise OSError else Ok () in
  let self := add_client (add_client init 1%nat "a") 2%nat "b" in
  (send_to_client (λ m : string, m) sendall self 1%nat "hello").2 = self.
Proof.
  intros sendall self.
  apply (send_to_client_result (λ m : string, m) sendall self 1%nat "hello").
  reflexivity.
Defined.
End RegistryExamples.

Section HubSessions.
Import Py AuctionHub HubMessages.
Context {socket : Type} `{Countable socket}.
Variable json_dumps : list (string * Json.value) → string.
Implicit Types (self : AuctionHub (socket := socket)).
Implicit Types (cs : list (call (socket := socket))).

(** X20.  Over any session of the hub, [message_count] grows by the
    number of [broadcast_message] calls: registering, removing, closing
    and [send_to_client] do not count, failed sends do. *)
Theorem run_message_count self cs :
  message_count (run json_dumps self cs) =
    message_count self + Z.of_nat (length (filter (λ c, is_broadcast c = true) cs)).
Proof.
  revert self. induction cs as [|c cs IH]; intros self.
  - cbn. lia.
  - cbn [run foldl]. unfold run in IH. rewrite IH, filter_cons.
    destruct c as [k id|k|sendall msg e|sendall k msg|]; cbn [step is_broadcast].
    + rewrite decide_False by done. done.
    + rewrite decide_False by done. unfold remove_client.
      by destruct (clients self !! k).
    + rewrite decide_True by done. rewrite broadcast_message_filter.
      cbn [snd message_count length]. lia.
    + rewrite decide_False by done. unfold send_to_client.
      destruct (sendall k _); cbn [snd]; [done|]. unfold remove_client.
      by destruct (clients self !! k).
    + rewrite decide_False by done. done.
Qed.

(** X21.  A session without [add_client] registers nobody and changes
    no id: the registry afterwards is a part of the registry before. *)
Theorem run_registers_nobody self cs :
  Forall (λ c, ∀ k id, c ≠ AddClient k id) cs →
  clients (run json_dumps self cs) ⊆ clients self.
Proof.
  intros Hcs. revert self. induction Hcs as [|c cs Hc _ IH]; intros self.
  - done.
  - cbn [run foldl]. etrans; [apply IH|].
    destruct c as [k id|k|sendall msg e|sendall k msg|]; cbn [step].
    + by destruct (Hc k id).
    + unfold remove_client. destruct (clients self !! k); cbn; [|done].
      apply delete_subseteq.
    + rewrite broadcast_message_filter. cbn. apply map_filter_subseteq.
    + unfold send_to_client. destruct (sendall k _); cbn; [done|].
      unfold remove_client. destruct (clients self !! k); cbn; [|done].
      apply delete_subseteq.
    + cbn. apply map_empty_subseteq.
Qed.
End HubSessions.

Section HubSessionExamples.
Import Py AuctionHub HubMessages.

Lemma run_registers_nobody_witness :
  let json_dumps := λ _ : list (string * Json.value), "{}" in
  let sendall := λ (k : nat) (_ : string),
    if (k =? 2)%nat then Raise OSError else Ok () in
  let self := add_client (add_client init 1%nat "a") 2%nat "b" in
  let cs := [BroadcastMessage sendall [("type", Json.Str "SHUTDOWN")] None;
             RemoveClient 1%nat] in
  clients (run json_dumps self cs) ⊆ clients self.
Proof.
  intros json_dumps sendall self cs. apply run_registers_nobody.
  repeat constructor; intros k id; discriminate.
Defined.
End HubSessionExamples.


(** * The messages of the hub *)

Section Messages.
Import Py Clock AuctionLogic HubMessages.

(** While the auction is active or has an end time, [get_statistics]
    returns. *)
Lemma get_statistics_returns s now :
  is_active s = true ∨ is_Some (end_time s) →
  ∃ st, get_statistics s now = Ok st ∧
        Stats.total_bids st = total_bids s ∧
        Stats.unique_bidders st = Z.of_nat (size (unique_bidders s)) ∧
        Stats.price_increase st = current_price s - starting_price s ∧
        Stats.duration_seconds st = duration s now ∧
        is_Some (duration s now).
Proof.
  intros Hs.
  assert (is_Some (duration s now)) as [d Hd].
  { unfold duration. destruct Hs as [->|[e ->]]; [|by eauto].
    destruct (end_time s); eauto. }
  destruct (get_statistics_duration s now d Hd) as (st & Hst & Hds & _).
  exists st. rewrite Hd. split_and!; [done| | | |done|by eauto].
  all: unfold get_statistics in Hst; rewrite Hd in Hst;
    destruct (if total_bids s >? 0 then _ else _); [|done];
    cbn in Hst; by injection Hst as <-.
Qed.

(** X22.  After an accepted [place_bid(user, value)], the message of
    [broadcast_new_price(user, value)] is built without an error and
    carries [next_min_bid = value + min_increment] and the number of
    the bid as [total_bids]. *)
Theorem new_price_message_after_bid s user value now now' :
  (place_bid s user value now).1.1 = true →
  new_price_message (place_bid s user value now).2 user value now' =
    Ok [("type", Json.Str "NEW_PRICE");
        ("user", Json.Str user);
        ("value", Json.Int value);
        ("next_min_bid", Json.Int (value + min_increment s));
        ("total_bids", Json.Int (total_bids s + 1));
        ("timestamp", Json.Str (strftime_HMS now'))].
Proof.
  destruct (place_bid_cases s value)
    as [Hc|[[Ha Hc]|[(Ha & H0 & Hc)|[(Ha & H0 & H1 & Hc)|(Ha & H0 & H1 & Hc)]]]].
  - by rewrite place_bid_inactive.
  - by rewrite place_bid_not_positive.
  - by rewrite place_bid_not_above.
  - by rewrite place_bid_below_increment.
  - rewrite place_bid_valid by done. intros _.
    cbn [snd].
    match goal with
    | |- new_price_message ?s' _ _ _ = _ =>
        destruct (get_statistics_returns s' now' (or_introl eq_refl))
          as (st & Hst & Htb & _)
    end.
    unfold new_price_message. rewrite Hst. cbn. by rewrite Htb.
Qed.

Lemma new_price_message_after_bid_witness :
  new_price_message (place_bid (init 1000 50 0) "alice" 1050 1000000).2
    "alice" 1050 2000000 =
    Ok [("type", Json.Str "NEW_PRICE");
        ("user", Json.Str "alice");
        ("value", Json.Int 1050);
        ("next_min_bid", Json.Int (1050 + min_increment (init 1000 50 0)));
        ("total_bids", Json.Int (total_bids (init 1000 50 0) + 1));
        ("timestamp", Json.Str (strftime_HMS 2000000))].
Proof.
  apply (new_price_message_after_bid (init 1000 50 0) "alice" 1050 1000000).
  reflexivity.
Defined.

(** X23.  In a reachable state the [total_bids] of a [BID_HISTORY]
    message is the number of records in the message, not the number of
    bids of the auction: [min limit total_bids] for a positive [limit]
    (10 by default), all of them for [None] and [0], and
    [max 0 (total_bids + limit)] for a negative [limit]. *)
Theorem bid_history_message_total s limit :
  reachable s →
  let n := match or_default (Some 10) limit with
           | Some n => if decide (0 < n) then Z.min n (total_bids s)
                       else if decide (n = 0) then total_bids s
                       else Z.max 0 (total_bids s + n)
           | None => total_bids s
           end in
  Json.get "total_bids" (bid_history_message s limit) = Some (Json.Int n) ∧
  ∃ records,
    Json.get "history" (bid_history_message s limit) =
      Some (Json.Array records) ∧
    Z.of_nat (length records) = n.
Proof.
  intros Hs n. destruct (reachable_history_numbers s Hs) as [Hlen _].
  unfold bid_history_message, get_bid_history. cbn [or_default Json.get].
  repeat (rewrite decide_False by done). rewrite !decide_True by done.
  assert (Z.of_nat (length (history_slice (bid_history s)
                              (or_default (Some 10) limit))) = n) as Hn.
  { subst n. destruct (or_default (Some 10) limit) as [m|]; [|done].
    destruct (decide (0 < m)).
    - rewrite history_slice_positive, length_drop by done. lia.
    - destruct (decide (m = 0)) as [->|]; [done|].
      replace m with (- - m) at 1 by lia.
      rewrite history_slice_negative, length_drop by lia. lia. }
  split; [by rewrite Hn|]. eexists. split; [done|].
  by rewrite length_fmap.
Qed.

Lemma bid_history_message_total_witness :
  Json.get "total_bids"
    (bid_history_message (AuctionLogic.run (init 1000 50 0) eleven_bids)
       Omitted) =
    Some (Json.Int 10).
Proof.
  assert (reachable (AuctionLogic.run (init 1000 50 0) eleven_bids)) as Hs.
  { unfold eleven_bids. cbn. repeat apply reachable_step. apply reachable_init. }
  destruct (bid_history_message_total _ Omitted Hs) as [Htotal _].
  vm_compute in Htotal. vm_compute. exact Htotal.
Defined.

(** X24.  After [end_auction] at time [t], the message of
    [broadcast_winner] is built without an error, in any state, and
    carries [duration_seconds = t - start_time] whenever it is built. *)
Theorem winner_message_after_end s t user value now :
  ∃ message,
    winner_message (end_auction s t) user value now = Ok message ∧
    Json.get "type" message = Some (Json.Str "WINNER") ∧
    Json.get "duration_seconds" message =
      Some (Json.Float (total_seconds t (start_time s))) ∧
    Json.get "total_bids" message = Some (Json.Int (total_bids s)) ∧
    Json.get "price_increase" message =
      Some (Json.Int (current_price s - starting_price s)) ∧
    ∀ now', winner_message (end_auction s t) user value now' = Ok message.
Proof.
  destruct (get_statistics_returns (end_auction s t) now)
    as (st & Hst & Htb & _ & Hp & Hd & _); [right; cbn; eauto|].
  assert (∀ now', get_statistics (end_auction s t) now' = Ok st) as Hany.
  { intros now'. by rewrite <- Hst. }
  unfold winner_message. rewrite Hst. cbn [mbind result_bind].
  eexists. split; [done|]. cbn [Json.get].
  repeat (rewrite decide_False by done). rewrite !decide_True by done.
  split_and!; [done| | | |].
  - by rewrite Hd.
  - by rewrite Htb.
  - by rewrite Hp.
  - intros now'. by rewrite Hany.
Qed.

(** X25.  The message of [broadcast_warning] has the key
    [remaining_seconds] exactly when the argument is not [None]: [0] is
    kept. *)
Theorem warning_message_remaining text remaining_seconds now :
  Json.get "remaining_seconds" (warning_message text remaining_seconds now) =
    Json.Int <$> remaining_seconds ∧
  Json.get "type" (warning_message text remaining_seconds now) =
    Some (Json.Str "WARNING") ∧
  Json.get "message" (warning_message text remaining_seconds now) =
    Some (Json.Str text) ∧
  length (warning_message text remaining_seconds now) =
    (if remaining_seconds is Some _ then 4 else 3)%nat.
Proof.
  unfold warning_message. destruct remaining_seconds; cbn [app Json.get];
    repeat (rewrite decide_False by done); rewrite ?decide_True by done; done.
Qed.
End Messages.

Section BroadcastMethods.
Import Py Clock AuctionLogic AuctionHub HubMessages.
Context {socket : Type} `{Countable socket}.
Variable json_dumps : list (string * Json.value) → string.
Variable sendall : socket → string → result unit.
Implicit Types (self : AuctionHub (socket := socket)).

(** X26.  With the auction in a reachable state, each of the six
    [broadcast_*] methods returns and makes exactly one broadcast:
    [message_count] is one more and nobody is registered by it. *)
Theorem broadcast_methods_count self s user value text remaining limit now :
  reachable s →
  (∃ h, broadcast_new_price json_dumps sendall self s user value now = Ok h ∧
        message_count h = message_count self + 1 ∧
        clients h ⊆ clients self) ∧
  (∃ h, broadcast_winner json_dumps sendall self s user value now = Ok h ∧
        message_count h = message_count self + 1 ∧
        clients h ⊆ clients self) ∧
  (∃ h, broadcast_statistics json_dumps sendall self s now = Ok h ∧
        message_count h = message_count self + 1 ∧
        clients h ⊆ clients self) ∧
  (let h := broadcast_bid_history json_dumps sendall self s limit in
   message_count h = message_count self + 1 ∧ clients h ⊆ clients self) ∧
  (let h := broadcast_shutdown json_dumps sendall self now in
   message_count h = message_count self + 1 ∧ clients h ⊆ clients self) ∧
  (let h := broadcast_warning json_dumps sendall self text remaining now in
   message_count h = message_count self + 1 ∧ clients h ⊆ clients self).
Proof.
  intros Hs.
  assert (∀ m, let h := (broadcast_message json_dumps sendall self m None).2 in
               message_count h = message_count self + 1 ∧
               clients h ⊆ clients self) as Hone.
  { intros m. cbv zeta. rewrite broadcast_message_filter. cbn.
    split; [done|]. apply map_filter_subseteq. }
  destruct (get_statistics_duration s now _ (reachable_duration s now Hs))
    as (st & Hst & _).
  unfold broadcast_new_price, broadcast_winner, broadcast_statistics,
    broadcast_bid_history, broadcast_shutdown, broadcast_warning,
    new_price_message, winner_message, statistics_message.
  rewrite Hst. cbn [mbind result_bind].
  split_and!; try (eexists; split; [done|]); apply Hone.
Qed.

End BroadcastMethods.

Section BroadcastMethodExamples.
Import Py Clock AuctionLogic AuctionHub HubMessages.

Lemma broadcast_methods_count_witness :
  let json_dumps := λ _ : list (string * Json.value), "{}" in
  let sendall := λ (k : nat) (_ : string), Ok () in
  let self := add_client AuctionHub.init 1%nat "a" in
  ∃ h, broadcast_new_price json_dumps sendall self (AuctionLogic.init 1000 50 0)
         "alice" 1050 0 = Ok h ∧
       message_count h = message_count self + 1 ∧
       clients h ⊆ clients self.
Proof.
  intros json_dumps sendall self.
  apply (broadcast_methods_count json_dumps sendall self (AuctionLogic.init 1000 50 0)
           "alice" 1050 "text" None Omitted 0).
  apply reachable_init.
Defined.
End BroadcastMethodExamples.


(** * Float prices *)

Section FloatPrices.
Import FloatAuction.

(** C3.  On a session that starts at 1000 with increment 50, the bids
    1050.5, [nan] and 1 are all accepted: [nan] passes the three price
    checks because every comparison with it is false, and after it so
    does any positive bid.  The price is then 1, below the starting
    price 1000; the price is still the value of the last record, and
    the three records are numbered 1, 2, 3. *)
Theorem nan_bid_breaks_price_invariant :
  let r1 := place_bid (init 1000 50 0) "alice" 1050.5 1000000 in
  let r2 := place_bid r1.2 "mallory" nan 2000000 in
  let r3 := place_bid r2.2 "bob" 1 3000000 in
  r1.1.1 = true ∧ r2.1.1 = true ∧ r3.1.1 = true ∧
  starting_price r3.2 = 1000%float ∧
  current_price r3.2 = 1%float ∧
  (current_price r3.2 <? starting_price r3.2)%float = true ∧
  (starting_price r3.2 <=? current_price r3.2)%float = false ∧
  value <$> last (bid_history r3.2) = Some (current_price r3.2) ∧
  total_bids r3.2 = 3 ∧
  bid_number <$> bid_history r3.2 = [1; 2; 3].
Proof. vm_compute. repeat split. Qed.

(** Finite floats round: at price [1e17] the sum with an increment of 1
    is [1e17] again, so a bid equal to the required next bid is refused
    by the check against the current price; with an increment of 50 the
    required next bid is [1e17 + 48], and a raise of 48 is accepted. *)
Lemma float_increment_rounds :
  get_required_next_bid (init 1e17 1 0) = 1e17%float ∧
  (place_bid (init 1e17 1 0) "alice" 1e17 1000000).1 =
    (false, NotAbove 1e17) ∧
  get_required_next_bid (init 1e17 50 0) = 100000000000000048%float ∧
  (place_bid (init 1e17 50 0) "alice" 100000000000000048 1000000).1 =
    (true, BidAccepted "alice" 100000000000000048).
Proof. vm_compute. repeat split. Qed.
End FloatPrices.
